(** * iwlistparse: a shallow embedding of [iwlistparse.py]

    The script turns the text printed by [iwlist <if> scan] into a list of
    records (one per access point) and the text printed by [iwconfig <if>]
    into the name of the associated network.

    Python strings are modelled by [string]; a character is an [ascii], read
    as a code point below 256.  A Python exception is a value of [exn]
    carried by [result].  A [dict] is a [gmap]. *)

From Stdlib Require Import ZArith Ascii String List Lia Bool DecimalString.
From Stdlib Require Import Sorting.Permutation.
From Stdlib Require Import Floats.SpecFloat.
From stdpp Require Import base option list sorting gmap strings.

(** ** Exceptions *)

Inductive exn : Set :=
  | TypeError
  | AttributeError
  | IndexError
  | ValueError
  | ZeroDivisionError
  | OverflowError
  | KeyError.

Inductive result (A : Type) : Type :=
  | Ok (a : A)
  | Raise (e : exn).

Arguments Ok {A} a.
Arguments Raise {A} e.

#[global] Instance result_ret : MRet result := fun A a => Ok a.

#[global] Instance result_bind : MBind result := fun A B k r =>
  match r with
  | Ok a => k a
  | Raise e => Raise e
  end.

(** ** The string primitives the script relies on *)

Module Py.

Definition chars (s : string) : list ascii := list_ascii_of_string s.
Definition str (l : list ascii) : string := string_of_list_ascii l.

(** [len(s)] *)
Definition len (s : string) : nat := String.length s.

(** [s[:n]] for [n >= 0] *)
Definition slice_to (n : nat) (s : string) : string := str (take n (chars s)).

(** [s[n:]] for [n >= 0] *)
Definition slice_from (n : nat) (s : string) : string := str (drop n (chars s)).

(** [s[-n:]] for [n > 0]: the last [n] characters, or all of [s] *)
Definition slice_last (n : nat) (s : string) : string :=
  str (drop (length (chars s) - n) (chars s)).

(** [s[1:-1]] *)
Definition slice_inner (s : string) : string :=
  str (take (length (chars s) - 1 - 1) (drop 1 (chars s))).

(** [c.isspace()] on code points below 256 *)
Definition isspace (c : ascii) : bool :=
  let n := nat_of_ascii c in
  ((9 <=? n)%nat && (n <=? 13)%nat) || ((28 <=? n)%nat && (n <=? 32)%nat)
  || (n =? 133)%nat || (n =? 160)%nat.

Fixpoint lstrip_chars (l : list ascii) : list ascii :=
  match l with
  | c :: l' => if isspace c then lstrip_chars l' else l
  | [] => []
  end.

(** [s.strip()] *)
Definition strip (s : string) : string :=
  str (rev (lstrip_chars (rev (lstrip_chars (chars s))))).

(** [s.split()]: the maximal runs of non-blank characters.  [cur] is the
    run being read, reversed. *)
Fixpoint split_ws_aux (cur : list ascii) (l : list ascii) : list string :=
  match l with
  | [] => match cur with [] => [] | _ => [str (rev cur)] end
  | c :: l' =>
      if isspace c
      then match cur with
           | [] => split_ws_aux [] l'
           | _ => str (rev cur) :: split_ws_aux [] l'
           end
      else split_ws_aux (c :: cur) l'
  end.

Definition split_ws (s : string) : list string := split_ws_aux [] (chars s).

(** Does [sep] start [l]?  Returns what follows it. *)
Fixpoint strip_prefix (sep l : list ascii) : option (list ascii) :=
  match sep, l with
  | [], _ => Some l
  | a :: sep', b :: l' => if Ascii.eqb a b then strip_prefix sep' l' else None
  | _ :: _, [] => None
  end.

(** [s.split(sep)] for a non-empty [sep]: occurrences are taken left to
    right and do not overlap.  [cur] is the piece being read, reversed;
    [skip] counts the characters of a separator just found that are still
    to be passed over. *)
Fixpoint split_on_aux (sep : list ascii) (skip : nat) (cur : list ascii)
    (l : list ascii) : list string :=
  match l with
  | [] => [str (rev cur)]
  | c :: l' =>
      match skip with
      | S k => split_on_aux sep k cur l'
      | O =>
          match strip_prefix sep l with
          | Some _ => str (rev cur) :: split_on_aux sep (length sep - 1) [] l'
          | None => split_on_aux sep 0 (c :: cur) l'
          end
      end
  end.

Definition split_on (sep s : string) : list string :=
  split_on_aux (chars sep) 0 [] (chars s).

(** [s.count(sub)] for a non-empty [sub]: occurrences that do not overlap *)
Fixpoint count_aux (sub : list ascii) (skip : nat) (l : list ascii) : nat :=
  match l with
  | [] => 0
  | _ :: l' =>
      match skip with
      | S k => count_aux sub k l'
      | O =>
          match strip_prefix sub l with
          | Some _ => S (count_aux sub (length sub - 1) l')
          | None => count_aux sub 0 l'
          end
      end
  end.

Definition count (sub s : string) : nat := count_aux (chars sub) 0 (chars s).

(** [s.find(sub)]: position of the first occurrence *)
Fixpoint find_aux (sub l : list ascii) (i : nat) : option nat :=
  match strip_prefix sub l with
  | Some _ => Some i
  | None => match l with
            | [] => None
            | _ :: l' => find_aux sub l' (S i)
            end
  end.

Definition find (sub s : string) : option nat := find_aux (chars sub) (chars s) 0.

(** [s.index(sub)] *)
Definition index (sub s : string) : result nat :=
  match find sub s with
  | Some i => Ok i
  | None => Raise ValueError
  end.

(** [s.replace(c, '')] for a one-character [c] *)
Definition remove_char (c : ascii) (s : string) : string :=
  str (List.filter (fun d => negb (Ascii.eqb c d)) (chars s)).

End Py.

(** ** LineMatcher *)

(** [match(line, keyword)]; [match] is reserved in Rocq. *)
Definition match_ (line keyword : string) : option string :=
  let length := Py.len keyword in
  if String.eqb (Py.slice_to length line) keyword
  then Some (Py.slice_from length line)
  else None.

Fixpoint matching_line (lines : list string) (keyword : string) : option string :=
  match lines with
  | [] => None
  | line :: lines' =>
      match match_ line keyword with
      | Some matching => Some matching
      | None => matching_line lines' keyword
      end
  end.

(** ** Numbers: [float], [round], and the [{:3}] format

    A Python float is an IEEE 754 binary64 value: [spec_float] at precision
    53 and maximal exponent 1024, rounding to nearest, ties to even. *)

Module PyFloat.

Local Open Scope Z_scope.

Definition prec : Z := 53.
Definition emax : Z := 1024.

Definition is_digit (c : ascii) : bool :=
  let n := nat_of_ascii c in (48 <=? n)%nat && (n <=? 57)%nat.

Definition digit_val (c : ascii) : Z := Z.of_nat (nat_of_ascii c) - 48.

(** The tail of a [digitpart ::= digit (["_"] digit)*]: [acc] is the value
    read so far and [n] the number of digits read after the start. *)
Fixpoint digits_aux (acc : Z) (n : nat) (l : list ascii) : Z * nat * list ascii :=
  match l with
  | c :: l' =>
      if is_digit c then digits_aux (10 * acc + digit_val c) (S n) l'
      else if Ascii.eqb c "_"
      then match l' with
           | d :: l'' =>
               if is_digit d then digits_aux (10 * acc + digit_val d) (S n) l''
               else (acc, n, l)
           | [] => (acc, n, l)
           end
      else (acc, n, l)
  | [] => (acc, n, [])
  end.

(** A [digitpart] continuing the value [acc]; [None] when no digit starts [l]. *)
Definition digitpart (acc : Z) (l : list ascii) : option (Z * nat * list ascii) :=
  match l with
  | c :: l' =>
      if is_digit c then Some (digits_aux (10 * acc + digit_val c) 1 l') else None
  | [] => None
  end.

(** [sign ::= "+" | "-"], optional; [true] is negative. *)
Definition sign (l : list ascii) : bool * list ascii :=
  match l with
  | c :: l' =>
      if Ascii.eqb c "-" then (true, l')
      else if Ascii.eqb c "+" then (false, l')
      else (false, l)
  | [] => (false, [])
  end.

(** [number ::= [digitpart] "." digitpart | digitpart ["."]]: the digits
    read as one integer, and how many of them follow the point. *)
Definition number (l : list ascii) : option (Z * nat * list ascii) :=
  match digitpart 0 l with
  | Some (m, _, rest) =>
      match rest with
      | c :: rest' =>
          if Ascii.eqb c "."
          then match digitpart m rest' with
               | Some (m', k, rest'') => Some (m', k, rest'')
               | None => Some (m, O, rest')
               end
          else Some (m, O, rest)
      | [] => Some (m, O, [])
      end
  | None =>
      match l with
      | c :: l' => if Ascii.eqb c "." then digitpart 0 l' else None
      | [] => None
      end
  end.

(** [exponent ::= ("e" | "E") [sign] digitpart], optional. *)
Definition exponent (l : list ascii) : option (Z * list ascii) :=
  match l with
  | c :: l' =>
      if Ascii.eqb c "e" || Ascii.eqb c "E"
      then let '(neg, l'') := sign l' in
           match digitpart 0 l'' with
           | Some (x, _, rest) => Some (if neg then - x else x, rest)
           | None => None
           end
      else Some (0, l)
  | [] => Some (0, [])
  end.

(** The binary64 value nearest to [m * 10 ^ e], for [0 <= m]. *)
Definition of_decimal (neg : bool) (m e : Z) : spec_float :=
  if m =? 0 then S754_zero neg
  else if 0 <=? e
  then binary_normalize prec emax ((if neg then - m else m) * 10 ^ e) 0 neg
  else let '(q, e', l) := SFdiv_core_binary prec emax m 0 (10 ^ (- e)) 0 in
       binary_round_aux prec emax neg q e' l.

Definition lower (c : ascii) : ascii :=
  let n := nat_of_ascii c in
  if (65 <=? n)%nat && (n <=? 90)%nat then ascii_of_nat (n + 32) else c.

(** [float(s)] for a string [s] *)
Definition float (s : string) : result spec_float :=
  let '(neg, l) := sign (Py.chars (Py.strip s)) in
  let word := Py.str (map lower l) in
  if String.eqb word "inf" || String.eqb word "infinity" then Ok (S754_infinity neg)
  else if String.eqb word "nan" then Ok S754_nan
  else
    match number l with
    | Some (m, k, rest) =>
        match exponent rest with
        | Some (x, []) => Ok (of_decimal neg m (x - Z.of_nat k))
        | _ => Raise ValueError
        end
    | None => Raise ValueError
    end.

(** [float(n)] for an int [n] that a binary64 can hold *)
Definition of_int (n : Z) : spec_float := binary_normalize prec emax n 0 false.

(** [x / y] *)
Definition div (x y : spec_float) : result spec_float :=
  match y with
  | S754_zero _ => Raise ZeroDivisionError
  | _ => Ok (SFdiv prec emax x y)
  end.

(** [x * y] *)
Definition mul (x y : spec_float) : spec_float := SFmul prec emax x y.

(** [round(x)]: the nearest integer, ties to the even one *)
Definition round (x : spec_float) : result Z :=
  match x with
  | S754_zero _ => Ok 0
  | S754_infinity _ => Raise OverflowError
  | S754_nan => Raise ValueError
  | S754_finite s m e =>
      let magnitude :=
        if 0 <=? e then Zpos m * 2 ^ e
        else
          let d := 2 ^ (- e) in
          let q := Zpos m / d in
          let r := Zpos m mod d in
          match 2 * r ?= d with
          | Lt => q
          | Gt => q + 1
          | Eq => if Z.even q then q else q + 1
          end in
      Ok (if s then - magnitude else magnitude)
  end.

(** [str(n)] for an int [n] *)
Definition str_of_int (n : Z) : string := NilZero.string_of_int (Z.to_int n).

(** ['{:3}'.format(n)] for an int [n]: right-justified in a field of
    width 3, padded with spaces *)
Definition format3 (n : Z) : string :=
  let digits := str_of_int n in
  Py.str (replicate (3 - Py.len digits) " "%char) +:+ digits.

End PyFloat.

(** ** Configuration *)

Definition INTERFACE : string := "wlan0".
Definition CURRENTLY_DISCONNECTED_LABEL : string := "*".

Definition COLUMNS : list string :=
  ["Name"; "Address"; "Quality"; "Signal"; "Channel"; "Encryption"].

(** ** Values and records

    A rule returns a [str] or, for [get_channel] and [get_address] on a cell
    without their line, [None].  A parsed cell is a [dict] from column names
    to such values. *)

Inductive pyval : Set :=
  | PStr (s : string)
  | PNone.

#[global] Instance pyval_eq_dec : EqDecision pyval.
Proof. solve_decision. Defined.

Definition of_option (o : option string) : pyval :=
  match o with
  | Some s => PStr s
  | None => PNone
  end.

Abbreviation record := (gmap string pyval).

(** ** FieldExtractors *)

Definition get_name (cell : list string) : result pyval :=
  match matching_line cell "ESSID:" with
  | Some essid => Ok (PStr (Py.slice_inner essid))
  | None => Raise TypeError
  end.

(** ['{:3} %'.format(percent)] *)
Definition quality_format (percent : Z) : string :=
  PyFloat.format3 percent +:+ " %".

Definition get_quality (cell : list string) : result pyval :=
  match matching_line cell "Quality=" with
  | None => Raise AttributeError
  | Some line =>
      match Py.split_ws line with
      | [] => Raise IndexError
      | token :: _ =>
          let quality := Py.split_on "/" token in
          match quality with
          | [] => Raise IndexError
          | q0 :: quality' =>
              x ← PyFloat.float q0;
              match quality' with
              | [] => Raise IndexError
              | q1 :: _ =>
                  y ← PyFloat.float q1;
                  ratio ← PyFloat.div x y;
                  percent ← PyFloat.round (PyFloat.mul ratio (PyFloat.of_int 100));
                  Ok (PStr (quality_format percent))
              end
          end
      end
  end.

Definition get_channel (cell : list string) : result pyval :=
  Ok (of_option (matching_line cell "Channel:")).

Definition get_signal_level (cell : list string) : result pyval :=
  match matching_line cell "Quality=" with
  | None => Raise AttributeError
  | Some line =>
      match Py.split_on "Signal level=" line with
      | _ :: level :: _ => Ok (PStr level)
      | _ => Raise IndexError
      end
  end.

(** One round of the [for line in cell] loop of [get_encryption]. *)
Definition encryption_step (enc line : string) : string :=
  match match_ line "IE:" with
  | Some matching =>
      match match_ matching "WPA Version " with
      | Some wpa => "WPA v." +:+ wpa
      | None => enc
      end
  | None => enc
  end.

Definition get_encryption (cell : list string) : string :=
  if decide (matching_line cell "Encryption key:" = Some "off")
  then "Open"
  else
    let enc := fold_left encryption_step cell "" in
    if String.eqb enc "" then "WEP" else enc.


Definition get_address (cell : list string) : result pyval :=
  Ok (of_option (matching_line cell "Address: ")).

(** The rules, in the order the dictionary literal lists them. *)
Definition RULES : list (string * (list string -> result pyval)) :=
  [ ("Name", get_name);
    ("Quality", get_quality);
    ("Channel", get_channel);
    ("Encryption", fun cell => Ok (PStr (get_encryption cell)));
    ("Address", get_address);
    ("Signal", get_signal_level) ].

(** ** CellParser *)

(** The [for key, rule in RULES.items()] loop of [parse_cell]. *)
Fixpoint apply_rules (rules : list (string * (list string -> result pyval)))
    (cell : list string) (parsed_cell : record) : result record :=
  match rules with
  | [] => Ok parsed_cell
  | (key, rule) :: rules' =>
      v ← rule cell;
      apply_rules rules' cell (<[key := v]> parsed_cell)
  end.

Definition parse_cell (cell : list string) : result record :=
  apply_rules RULES cell ∅.

(** ** TableBuilder: the sort *)

(** [el[sortby]], the key function handed to [list.sort]. *)
Definition sort_key (el : record) : result pyval :=
  match el !! "Quality" with
  | Some v => Ok v
  | None => Raise KeyError
  end.

Definition is_str (v : pyval) : bool :=
  match v with
  | PStr _ => true
  | PNone => false
  end.

(** The key of a record whose Quality is a [str]. *)
Definition quality_of (el : record) : string :=
  match el !! "Quality" with
  | Some (PStr s) => s
  | _ => ""
  end.

(** [list.sort(key=..., reverse=True)] is the interpreter's stable sort: the
    result is the one ordering of the list with keys descending where
    elements of equal key keep their order.  Insertion from the right
    computes that ordering.  [lt x y] is the comparison of the keys of [x]
    and [y]. *)
Section StableSort.
Context {A : Type} (lt : A -> A -> bool).

(** [x] goes in front of the first element whose key is not above its own. *)
Fixpoint insert_desc (x : A) (l : list A) : list A :=
  match l with
  | [] => [x]
  | y :: l' => if lt x y then y :: insert_desc x l' else x :: y :: l'
  end.

Fixpoint sort_desc (l : list A) : list A :=
  match l with
  | [] => []
  | x :: l' => insert_desc x (sort_desc l')
  end.
End StableSort.

(** Comparison of two records by their Quality strings: [<] on [str]
    compares code point by code point. *)
Definition quality_lt (x y : record) : bool :=
  String.ltb (quality_of x) (quality_of y).

(** [sort_cells] changes the list in place; here it returns the new list.
    The keys are all computed before the first comparison, so a record
    without the key raises [KeyError]; with two records or more every key
    takes part in a comparison, and comparing [None] raises [TypeError]. *)
Definition sort_cells (cells : list record) : result (list record) :=
  keys ← mapM sort_key cells;
  if bool_decide (2 ≤ length cells)%nat && negb (forallb is_str keys)
  then Raise TypeError
  else Ok (sort_desc quality_lt cells).

(** ** CellSegmenter *)

(** [cells[-1].append(line)] *)
Definition append_to_last (cells : list (list string)) (line : string)
    : list (list string) :=
  alter (fun cell => cell ++ [line]) (length cells - 1)%nat cells.

(** One round of the [for line in lines] loop of [iwlist_parse]. *)
Definition segment_step (cells : list (list string)) (line : string)
    : list (list string) :=
  match match_ line "Cell " with
  | Some cell_line =>
      append_to_last (cells ++ [[]]) (Py.strip (Py.slice_last 27 cell_line))
  | None => append_to_last cells (Py.strip line)
  end.

(** Lines 163 to 173 of [iwlist_parse]: the cells, before they are parsed. *)
Definition segment_cells (lines : list string) : list (list string) :=
  drop 1 (fold_left segment_step lines [[]]).

Definition iwlist_parse (lines : list string) : result (list record) :=
  parsed_cells ← mapM parse_cell (segment_cells lines);
  sort_cells parsed_cells.

(** ** ConnectionStatusParser *)

(** The argument of [iwconfig_parse]: a list of lines, or some other object. *)
Inductive pylines : Set :=
  | Lines (l : list string)
  | NotAList.

Definition dquote : ascii := ascii_of_nat 34.

Definition iwconfig_parse (lines : pylines) : result string :=
  match lines with
  | Lines l =>
      match l with
      | [] => Raise IndexError
      | first :: _ =>
          let line := Py.strip first in
          if (0 <? Py.count "ESSID:" line)%nat
          then
            i ← Py.index "ESSID:" line;
            let indx := (i + 6)%nat in
            let currently_connected := Py.remove_char dquote (Py.slice_from indx line) in
            if negb (String.eqb currently_connected "off/any")
            then Ok currently_connected
            else Ok CURRENTLY_DISCONNECTED_LABEL
          else Ok CURRENTLY_DISCONNECTED_LABEL
      end
  | NotAList => Ok CURRENTLY_DISCONNECTED_LABEL
  end.

(** ** ScanOrchestrator *)

Record ParseResult : Type := {
  currently_connected : string;
  headers : bool;
  access_points : list record;
  error : option string
}.

Section Orchestrator.
(** The two commands are run by [popen_handler]; each hands back the lines
    of the output and the error stream. *)
Variable iwlist_handler : string -> list string * option string.
Variable iwconfig_handler : string -> list string * option string.

Definition iwlistparse (interface switch : string) (headers : bool)
    : result ParseResult :=
  let currently_connected := CURRENTLY_DISCONNECTED_LABEL in
  let access_points := [] in
  let error := None in
  '(currently_connected, error) ←
    (if String.eqb switch "connected"
     then let '(lines, error) := iwconfig_handler interface in
          currently_connected ← iwconfig_parse (Lines lines);
          Ok (currently_connected, error)
     else Ok (currently_connected, error));
  '(access_points, error) ←
    (if String.eqb switch "all"
     then let '(lines, error) := iwlist_handler interface in
          access_points ← iwlist_parse lines;
          Ok (access_points, error)
     else Ok (access_points, error));
  Ok {| currently_connected := currently_connected;
        headers := headers;
        access_points := access_points;
        error := error |}.
End Orchestrator.

(** ** Presentation: [print_table] and [print_cells] *)

(** [len(el)] for an element of the table *)
Definition py_len (el : pyval) : result nat :=
  match el with
  | PStr s => Ok (Py.len s)
  | PNone => Raise TypeError
  end.

(** [s.ljust(n)]: [s] followed by blanks up to the width [n] *)
Definition ljust (n : nat) (s : string) : string :=
  s +:+ Py.str (replicate (n - Py.len s) " "%char).

(** [zip( *table)]: the columns, as many as the shortest row has elements *)
Fixpoint zip_star (table : list (list pyval)) : list (list pyval) :=
  match table with
  | [] => []
  | [row] => map (fun el => [el]) row
  | row :: table' => zip_with cons row (zip_star table')
  end.

(** [max(map(len, column))] *)
Definition column_width (column : list pyval) : result nat :=
  lens ← mapM py_len column; Ok (max_list lens).

(** The [for i, el in enumerate(line)] loop, from the index [i] on. *)
Fixpoint justify_line (widths : list nat) (i : nat) (line : list pyval)
    : result (list string) :=
  match line with
  | [] => Ok []
  | el :: line' =>
      match el with
      | PNone => Raise AttributeError
      | PStr s =>
          match widths !! i with
          | None => Raise IndexError
          | Some width =>
              justified_line ← justify_line widths (S i) line';
              Ok (ljust (width + 2) s :: justified_line)
          end
      end
  end.

Definition newline : string := String (ascii_of_nat 10) "".

(** What the second loop of [print_table] writes for one line. *)
Definition print_line (line : list string) : string :=
  fold_right (fun el out => el +:+ " " +:+ out) newline line.

(** [justified_table] *)
Definition justify_table (table : list (list pyval)) : result (list (list string)) :=
  widths ← mapM column_width (zip_star table);
  mapM (justify_line widths 0) table.

(** [print_table]: the text written to the standard output.  Nothing is
    written before [justified_table] is complete. *)
Definition print_table (table : list (list pyval)) : result string :=
  justified_table ← justify_table table;
  Ok (String.concat "" (map print_line justified_table)).

(** [cell[column]] *)
Definition cell_property (cell : record) (column : string) : result pyval :=
  match cell !! column with
  | Some v => Ok v
  | None => Raise KeyError
  end.

Definition print_cells (cells : list record) (headers : bool) : result string :=
  let table := if headers then [map PStr COLUMNS] else [] in
  rows ← mapM (fun cell => mapM (cell_property cell) COLUMNS) cells;
  print_table (table ++ rows).

(** ** The process collaborator *)

Section Process.
(** [subprocess.Popen(args, ...).communicate()] on a run that returns: what
    the command writes on its output, and its error stream.  A command that
    cannot be started, or whose output cannot be decoded, makes [Popen] or
    [communicate] raise before [popen_handler] has anything to split; such
    runs are not described here. *)
Variable communicate : list string -> string * option string.

Definition popen_handler (args : list string) : list string * option string :=
  let '(output, error) := communicate args in
  (Py.split_on newline output, error).

Definition iwlist_handler (interface : string) : list string * option string :=
  popen_handler ["iwlist"; interface; "scan"].

Definition iwconfig_handler (interface : string) : list string * option string :=
  popen_handler ["iwconfig"; interface].
End Process.

(** * Notions used to state the properties *)

(** The WPA version a line announces: what follows ["WPA Version "] in what
    follows ["IE:"]. *)
Definition wpa_version (line : string) : option string :=
  matching ← match_ line "IE:"; match_ matching "WPA Version ".

(** Neighbours in descending order: the left one is not below the right one. *)
Definition not_below {A : Type} (lt : A -> A -> bool) (x y : A) : Prop :=
  lt x y = false.

(** A record the sort accepts: its Quality is a [str]. *)
Definition has_quality (el : record) : Prop :=
  exists q, el !! "Quality" = Some (PStr q).

(** A record whose Quality is the formatted percentage [percent el], a
    whole number from 0 to 100. *)
Definition quality_is_percent (percent : record -> Z) (el : record) : Prop :=
  (0 <= percent el <= 100)%Z
  /\ el !! "Quality" = Some (PStr (quality_format (percent el))).

(** A name between double quotes, as [iwlist] and [iwconfig] print it. *)
Definition quoted (s : string) : string := String dquote (s +:+ String dquote "").

(** A record as [parse_cell] builds them, for the examples. *)
Definition access_point (name quality : string) : record :=
  list_to_map
    [ ("Name", PStr name); ("Quality", PStr quality); ("Channel", PNone);
      ("Encryption", PStr "WEP"); ("Address", PNone); ("Signal", PStr "-43 dBm") ].

(** The percentage from 0 to 100 whose formatted string is the Quality of a
    record (0 when there is none). *)
Definition percent_of (el : record) : Z :=
  default 0%Z
    (List.find
       (fun p => bool_decide (el !! "Quality" = Some (PStr (quality_format p))))
       (map Z.of_nat (seq 0 101))).

(** The lines of a cell after its first: the stripped lines up to the next
    line that begins with ["Cell "]. *)
Fixpoint cell_body (lines : list string) : list string :=
  match lines with
  | [] => []
  | line :: lines' =>
      if String.prefix "Cell " line then [] else Py.strip line :: cell_body lines'
  end.

(** The cells of a scan, read off the text: one for each line [line] that
    begins with ["Cell "], made of the last 27 characters of the rest of
    [line], stripped, and of the body that follows. *)
Fixpoint cells_of (lines : list string) : list (list string) :=
  match lines with
  | [] => []
  | line :: lines' =>
      if String.prefix "Cell " line
      then (Py.strip (Py.slice_last 27 (Py.slice_from 5 line)) :: cell_body lines')
           :: cells_of lines'
      else cells_of lines'
  end.

(** The answer of [iwconfig_parse] read off its first line: the text after
    the first ["ESSID:"], without double quotes, unless that is ["off/any"]
    or the marker is absent. *)
Definition connected_name (first : string) : string :=
  let line := Py.strip first in
  match Py.find "ESSID:" line with
  | Some i =>
      let name := Py.remove_char dquote (Py.slice_from (i + 6) line) in
      if String.eqb name "off/any" then CURRENTLY_DISCONNECTED_LABEL else name
  | None => CURRENTLY_DISCONNECTED_LABEL
  end.

(** The part of [s] before the first [sep], or all of [s]. *)
Definition first_piece (sep s : string) : string :=
  match Py.find sep s with
  | Some i => Py.slice_to i s
  | None => s
  end.

(** Only blanks. *)
Definition blank (s : string) : Prop :=
  Forall (fun c => Py.isspace c = true) (Py.chars s).

(** A run of characters without a blank, not empty. *)
Definition solid (s : string) : Prop :=
  s <> "" /\ Forall (fun c => Py.isspace c = false) (Py.chars s).

(** Nothing, or text that begins with a blank: what may follow a token. *)
Definition token_end (s : string) : Prop :=
  match Py.chars s with
  | [] => True
  | c :: _ => Py.isspace c = true
  end.

(** The record [parse_cell] builds from the answers of the six rules. *)
Definition record_of (cell : list string) (name quality signal : pyval) : record :=
  <["Signal" := signal]>
    (<["Address" := of_option (matching_line cell "Address: ")]>
       (<["Encryption" := PStr (get_encryption cell)]>
          (<["Channel" := of_option (matching_line cell "Channel:")]>
             (<["Quality" := quality]> (<["Name" := name]> ∅))))).

(** [popen_handler] hands back the same lines for every interface. *)
Definition handler_of (lines : list string) : string -> list string * option string :=
  fun _ => (lines, None).

(** The whole number nearest to [a / b], the even one of two equally near. *)
Definition nearest_even (a b : Z) : Z :=
  let q := (a / b)%Z in
  match (2 * (a mod b) ?= b)%Z with
  | Lt => q
  | Gt => (q + 1)%Z
  | Eq => if Z.even q then q else (q + 1)%Z
  end.

(** What [get_quality] makes of the first token of the [Quality=] line. *)
Definition quality_of_token (token : string) : result pyval :=
  match Py.split_on "/" token with
  | [] => Raise IndexError
  | q0 :: quality' =>
      x ← PyFloat.float q0;
      match quality' with
      | [] => Raise IndexError
      | q1 :: _ =>
          y ← PyFloat.float q1;
          ratio ← PyFloat.div x y;
          percent ← PyFloat.round (PyFloat.mul ratio (PyFloat.of_int 100));
          Ok (PStr (quality_format percent))
      end
  end.

(** The percentage [get_quality] finds for the fraction [n/d] of two whole
    numbers up to 100: the nearest whole number, the even one of two equally
    near, except that [23/40 * 100] is just below [57.5] in binary64. *)
Definition fraction_percent (n d : Z) : Z :=
  if (40 * n =? 23 * d)%Z then 57%Z else nearest_even (100 * n) d.

(** A check of [quality_of_token] on the fraction [n/d]: the token has no
    blank, the answer is [fraction_percent] formatted, and that percentage
    lies between 0 and 100, within one half of [100 * n / d]. *)
Definition fraction_checked (d n : nat) : bool :=
  let token := PyFloat.str_of_int (Z.of_nat n) +:+ "/" +:+ PyFloat.str_of_int (Z.of_nat d) in
  let percent := fraction_percent (Z.of_nat n) (Z.of_nat d) in
  forallb (fun c => negb (Py.isspace c)) (Py.chars token)
  && match quality_of_token token with
     | Ok (PStr s) => String.eqb s (quality_format percent)
     | _ => false
     end
  && (0 <=? percent)%Z && (percent <=? 100)%Z
  && (2 * Z.abs (100 * Z.of_nat n - percent * Z.of_nat d) <=? Z.of_nat d)%Z.

(** A run of characters that does not begin with a blank. *)
Definition no_blank_head (l : list ascii) : Prop :=
  match l with
  | [] => True
  | c :: _ => Py.isspace c = false
  end.

(** The width of each column of a table of strings: the length of its
    longest element. *)
Fixpoint column_widths (rows : list (list string)) : list nat :=
  match rows with
  | [] => []
  | [row] => map Py.len row
  | row :: rows' => zip_with Nat.max (map Py.len row) (column_widths rows')
  end.

(** A row as it is printed: each element left-justified in its column's
    width and two, and followed by a blank; a newline ends the row. *)
Definition printed_row (widths : list nat) (row : list string) : string :=
  print_line (zip_with (fun width el => ljust (width + 2) el) widths row).

(** The text of a record in a column (empty when it is not a string). *)
Definition field_text (el : record) (column : string) : string :=
  match el !! column with
  | Some (PStr s) => s
  | _ => ""
  end.

(** The values of a record in the order of the columns ([None] for a value
    that is [None]). *)
Definition cell_values (el : record) : list pyval :=
  map (fun column => default PNone (el !! column)) COLUMNS.

(** The rows of strings [print_cells] prints: the column names when headers
    are asked for, then the texts of each record. *)
Definition table_rows (cells : list record) (headers : bool) : list (list string) :=
  (if headers then [COLUMNS] else [])
  ++ map (fun el => map (field_text el) COLUMNS) cells.

(** A float that is a number: neither an infinity nor a NaN. *)
Definition finite (x : spec_float) : Prop :=
  match x with
  | S754_zero _ | S754_finite _ _ _ => True
  | S754_infinity _ | S754_nan => False
  end.

(** * Properties *)

(** ** Strings *)

Lemma str_chars (s : string) : Py.str (Py.chars s) = s.
Proof. apply string_of_list_ascii_of_string. Qed.

Lemma chars_str (l : list ascii) : Py.chars (Py.str l) = l.
Proof. apply list_ascii_of_string_of_list_ascii. Qed.

Lemma chars_inj (s t : string) : Py.chars s = Py.chars t -> s = t.
Proof. intros H. by rewrite <- (str_chars s), <- (str_chars t), H. Qed.

Lemma chars_append (s t : string) : Py.chars (s +:+ t) = Py.chars s ++ Py.chars t.
Proof. induction s as [|c s IH]; simpl; [done|]. unfold Py.chars in *. simpl. by rewrite IH. Qed.

Lemma length_chars (s : string) : length (Py.chars s) = String.length s.
Proof. induction s as [|c s IH]; simpl; [done|]. unfold Py.chars in *. simpl. by rewrite IH. Qed.

(** ** LineMatcher *)

(** [match] answers with the rest of the line exactly when the line is the
    keyword followed by that rest. *)
Lemma match_Some (line keyword rest : string) :
  match_ line keyword = Some rest <-> line = keyword +:+ rest.
Proof.
  unfold match_, Py.slice_to, Py.slice_from, Py.len. split.
  - destruct (String.eqb_spec (Py.str (take (String.length keyword) (Py.chars line)))
                keyword) as [Hk|]; [|done].
    intros [= <-]. apply chars_inj.
    rewrite chars_append, chars_str.
    rewrite <- Hk at 1. by rewrite chars_str, take_drop.
  - intros ->. rewrite chars_append, <- length_chars.
    rewrite take_app_length, drop_app_length, !str_chars.
    by rewrite String.eqb_refl.
Qed.

Lemma prefix_append (keyword line : string) :
  String.prefix keyword line = true <-> exists rest, line = keyword +:+ rest.
Proof.
  revert line. induction keyword as [|c keyword IH]; intros line; simpl.
  - split; [by exists line | by destruct line].
  - destruct line as [|d line]; [split; [done | by intros [? ?]]|].
    simpl. destruct (ascii_dec c d) as [Hcd|Hcd].
    + subst d. rewrite IH. split; intros [rest Hrest]; exists rest.
      * by rewrite Hrest.
      * simpl in Hrest. by injection Hrest.
    + split; [done | intros [rest [= ? ?]]; done].
Qed.

Lemma match_prefix (line keyword : string) :
  String.prefix keyword line = true <-> is_Some (match_ line keyword).
Proof.
  rewrite prefix_append. unfold is_Some.
  split; intros [rest H]; exists rest; by apply match_Some.
Qed.

Lemma match_prefix_false (line keyword : string) :
  String.prefix keyword line = false <-> match_ line keyword = None.
Proof.
  rewrite <- not_true_iff_false, match_prefix, <- eq_None_not_Some. done.
Qed.

(** ** [str.find] and [str.split] *)

Lemma find_aux_ge (sub l : list ascii) (k j : nat) :
  Py.find_aux sub l k = Some j -> (k <= j)%nat.
Proof.
  revert k. induction l as [|c l IH]; intros k; simpl.
  - destruct (Py.strip_prefix sub []); intros [= <-]; lia.
  - destruct (Py.strip_prefix sub (c :: l)).
    + intros [= <-]. lia.
    + intros H. apply IH in H. lia.
Qed.

Lemma find_aux_shift (sub l : list ascii) (k : nat) :
  Py.find_aux sub l k = (fun i => (k + i)%nat) <$> Py.find_aux sub l 0.
Proof.
  revert k. induction l as [|c l IH]; intros k; simpl.
  - destruct (Py.strip_prefix sub []); simpl; [f_equal; lia | done].
  - destruct (Py.strip_prefix sub (c :: l)); simpl; [f_equal; lia|].
    rewrite (IH (S k)), (IH 1%nat).
    destruct (Py.find_aux sub l 0); simpl; [f_equal; lia | done].
Qed.

(** Characters of a separator still to be passed over are dropped. *)
Lemma split_on_aux_skip (sep cur l : list ascii) (k : nat) :
  Py.split_on_aux sep k cur l = Py.split_on_aux sep 0 cur (drop k l).
Proof.
  revert k. induction l as [|c l IH]; intros k.
  - by rewrite drop_nil; destruct k.
  - destruct k as [|k]; [done|]. simpl. apply IH.
Qed.

Lemma strip_prefix_length (sep l rest : list ascii) :
  Py.strip_prefix sep l = Some rest -> rest = drop (length sep) l.
Proof.
  revert l. induction sep as [|a sep IH]; intros l; simpl.
  - by intros [= <-].
  - destruct l as [|b l]; [done|].
    destruct (Ascii.eqb a b); [apply IH | done].
Qed.

(** Without an occurrence of the separator there is one piece. *)
Lemma split_on_aux_None (sep cur l : list ascii) :
  sep <> [] -> Py.find_aux sep l 0 = None ->
  Py.split_on_aux sep 0 cur l = [Py.str (rev cur ++ l)].
Proof.
  intros Hsep. revert cur. induction l as [|c l IH]; intros cur; simpl.
  - by rewrite app_nil_r.
  - destruct (Py.strip_prefix sep (c :: l)); [done|].
    rewrite find_aux_shift. intros H.
    rewrite IH by (by destruct (Py.find_aux sep l 0)).
    simpl. by rewrite <- app_assoc.
Qed.

(** With a first occurrence at [i], the first piece is what precedes it and
    the others are the pieces of what follows it. *)
Lemma split_on_aux_Some (sep cur l : list ascii) (i : nat) :
  sep <> [] -> Py.find_aux sep l 0 = Some i ->
  Py.split_on_aux sep 0 cur l
  = Py.str (rev cur ++ take i l)
    :: Py.split_on_aux sep 0 [] (drop (i + length sep) l).
Proof.
  intros Hsep. revert cur i. induction l as [|c l IH]; intros cur i; simpl.
  - by destruct sep.
  - destruct (Py.strip_prefix sep (c :: l)) as [rest|] eqn:Hp.
    + intros [= <-]. simpl. rewrite app_nil_r. f_equal.
      rewrite split_on_aux_skip. f_equal.
      destruct sep; [done|]. simpl. by rewrite Nat.sub_0_r.
    + rewrite find_aux_shift.
      destruct (Py.find_aux sep l 0) as [i'|] eqn:Hf; [|done].
      intros [= <-]. rewrite (IH (c :: cur) i' eq_refl).
      simpl. by rewrite <- app_assoc.
Qed.

Lemma chars_nonempty (s : string) : s <> "" -> Py.chars s <> [].
Proof. intros Hs H. apply Hs, chars_inj. by rewrite H. Qed.

Lemma split_on_None (sep s : string) :
  sep <> "" -> Py.find sep s = None -> Py.split_on sep s = [s].
Proof.
  intros Hsep H. unfold Py.split_on.
  rewrite split_on_aux_None by (by try apply chars_nonempty).
  simpl. by rewrite str_chars.
Qed.

Lemma split_on_Some (sep s : string) (i : nat) :
  sep <> "" -> Py.find sep s = Some i ->
  Py.split_on sep s
  = Py.slice_to i s :: Py.split_on sep (Py.slice_from (i + Py.len sep) s).
Proof.
  intros Hsep H. unfold Py.split_on.
  rewrite (split_on_aux_Some _ _ _ i) by (by try apply chars_nonempty).
  unfold Py.slice_to, Py.slice_from, Py.len. simpl.
  by rewrite chars_str, length_chars.
Qed.

(** The first of the pieces. *)
Lemma split_on_first_piece (sep s : string) :
  sep <> "" -> exists pieces, Py.split_on sep s = first_piece sep s :: pieces.
Proof.
  intros Hsep. unfold first_piece.
  destruct (Py.find sep s) as [i|] eqn:Hf.
  - rewrite (split_on_Some sep s i) by done. eauto.
  - rewrite split_on_None by done. eauto.
Qed.

(** The first two pieces when the separator occurs. *)
Lemma split_on_two_pieces (sep s : string) (i : nat) :
  sep <> "" -> Py.find sep s = Some i ->
  exists pieces,
    Py.split_on sep s
    = Py.slice_to i s
      :: first_piece sep (Py.slice_from (i + Py.len sep) s) :: pieces.
Proof.
  intros Hsep H. rewrite (split_on_Some sep s i) by done.
  destruct (split_on_first_piece sep (Py.slice_from (i + Py.len sep) s) Hsep)
    as [pieces ->].
  eauto.
Qed.

(** ** [str.split()] *)

Lemma split_ws_aux_blank (ws l : list ascii) :
  Forall (fun c => Py.isspace c = true) ws ->
  Py.split_ws_aux [] (ws ++ l) = Py.split_ws_aux [] l.
Proof. induction 1 as [|c ws Hc _ IH]; simpl; [done|]. by rewrite Hc. Qed.

Lemma split_ws_aux_solid (tok cur l : list ascii) :
  Forall (fun c => Py.isspace c = false) tok ->
  Py.split_ws_aux cur (tok ++ l) = Py.split_ws_aux (rev tok ++ cur) l.
Proof.
  intros H. revert cur. induction H as [|c tok Hc _ IH]; intros cur; simpl; [done|].
  by rewrite Hc, IH, <- app_assoc.
Qed.

Lemma split_ws_aux_end (cur l : list ascii) :
  cur <> [] ->
  match l with [] => True | c :: _ => Py.isspace c = true end ->
  Py.split_ws_aux cur l = Py.str (rev cur) :: Py.split_ws_aux [] l.
Proof.
  intros Hcur Hl. destruct l as [|c l]; simpl.
  - by destruct cur.
  - rewrite Hl. by destruct cur.
Qed.

(** The first token of a line: what stands between the leading blanks and
    the next blank. *)
Lemma split_ws_first (ws token rest : string) :
  blank ws -> solid token -> token_end rest ->
  Py.split_ws (ws +:+ token +:+ rest) = token :: Py.split_ws rest.
Proof.
  intros Hws [Hne Htok] Hrest. unfold Py.split_ws.
  rewrite !chars_append, split_ws_aux_blank by done.
  rewrite split_ws_aux_solid by done.
  rewrite app_nil_r, split_ws_aux_end.
  - by rewrite rev_involutive, str_chars.
  - intros H. apply (f_equal (@rev ascii)) in H. rewrite rev_involutive in H.
    by apply chars_nonempty in Hne.
  - done.
Qed.

(** ** Encryption *)

Lemma encryption_step_wpa_version enc line :
  encryption_step enc line = from_option (String.append "WPA v.") enc (wpa_version line).
Proof.
  unfold encryption_step, wpa_version.
  destruct (match_ line "IE:") as [matching|]; simpl; [|done].
  by destruct (match_ matching "WPA Version ").
Qed.

(** The loop keeps the version of the last line that announces one. *)
Lemma fold_encryption_step cell enc :
  fold_left encryption_step cell enc
  = from_option (String.append "WPA v.") enc (last (omap wpa_version cell)).
Proof.
  revert enc. induction cell as [|line cell IH]; intros enc; [done|].
  cbn [fold_left]. rewrite IH, encryption_step_wpa_version.
  change (omap wpa_version (line :: cell))
    with (match wpa_version line with
          | Some v => v :: omap wpa_version cell
          | None => omap wpa_version cell
          end).
  destruct (wpa_version line) as [v|]; [|done].
  rewrite last_cons. by destruct (last (omap wpa_version cell)).
Qed.

(** A line announces the version [v] when it is ["IE:WPA Version "] and [v]. *)
Lemma wpa_version_Some (line version : string) :
  wpa_version line = Some version <-> line = "IE:WPA Version " +:+ version.
Proof.
  unfold wpa_version. split.
  - destruct (match_ line "IE:") as [matching|] eqn:Hie; [|done]. simpl.
    intros Hwpa. apply match_Some in Hie, Hwpa. by subst.
  - intros ->.
    assert (match_ ("IE:WPA Version " +:+ version) "IE:"
            = Some ("WPA Version " +:+ version)) as -> by by apply match_Some.
    simpl. by apply match_Some.
Qed.

Lemma get_encryption_off cell :
  matching_line cell "Encryption key:" = Some "off" -> get_encryption cell = "Open".
Proof. intros H. unfold get_encryption. by rewrite decide_True. Qed.

Lemma get_encryption_else cell :
  matching_line cell "Encryption key:" <> Some "off" ->
  get_encryption cell
  = from_option (String.append "WPA v.") "WEP" (last (omap wpa_version cell)).
Proof.
  intros H. unfold get_encryption. rewrite decide_False by done.
  rewrite fold_encryption_step.
  destruct (last (omap wpa_version cell)); reflexivity.
Qed.

(** C1, as the claim states it, fails: the line
    [IE: IEEE 802.11i/WPA2 Version 1] does not give ["WPA v.1"].  What
    follows ["IE:"] on it does not begin with ["WPA Version "]. *)
Lemma get_encryption_wpa2_line_is_wep :
  let cell := ["Encryption key:on"; "IE: IEEE 802.11i/WPA2 Version 1"] in
  matching_line cell "Encryption key:" = Some "on"
  /\ get_encryption cell = "WEP"
  /\ get_encryption cell <> "WPA v.1".
Proof. done. Qed.

(** C1 (amended): for every cell whose [Encryption key:] line is not
    [off] (or is absent), the extractor returns ["WPA v."] followed by the
    version of the last line that matches ["IE:"] and whose remainder
    matches ["WPA Version "], and ["WEP"] when there is no such line. *)
Theorem get_encryption_last_wpa_version (cell : list string) :
  matching_line cell "Encryption key:" <> Some "off" ->
  match last (omap wpa_version cell) with
  | Some version => get_encryption cell = "WPA v." +:+ version
  | None => get_encryption cell = "WEP"
  end.
Proof.
  intros H. rewrite (get_encryption_else cell H).
  by destruct (last (omap wpa_version cell)).
Qed.

Lemma get_encryption_last_wpa_version_witness :
  get_encryption ["Encryption key:on"; "IE:WPA Version 1"; "IE:WPA Version 2"]
  = "WPA v.2"
  /\ get_encryption ["Encryption key:on"; "IE: IEEE 802.11i/WPA2 Version 1"] = "WEP"
  /\ get_encryption ["Encryption key:on"] = "WEP".
Proof.
  split; [|split].
  - apply (get_encryption_last_wpa_version
             ["Encryption key:on"; "IE:WPA Version 1"; "IE:WPA Version 2"]).
    vm_compute. discriminate.
  - apply (get_encryption_last_wpa_version
             ["Encryption key:on"; "IE: IEEE 802.11i/WPA2 Version 1"]).
    vm_compute. discriminate.
  - apply (get_encryption_last_wpa_version ["Encryption key:on"]).
    vm_compute. discriminate.
Defined.

(** C9, as the claim states it, fails in its last part: a cell without an
    [Encryption key:] line that announces a WPA version does not give
    ["WEP"]. *)
Lemma get_encryption_no_key_line_wpa :
  matching_line ["IE:WPA Version 1"] "Encryption key:" = None
  /\ get_encryption ["IE:WPA Version 1"] = "WPA v.1"
  /\ get_encryption ["IE:WPA Version 1"] <> "WEP".
Proof. done. Qed.

(** C9 (amended): on every cell the extractor returns ["Open"], ["WEP"] or a
    string that begins with ["WPA v."]; a cell without an [Encryption key:]
    line never gives ["Open"], and gives ["WEP"] when no line announces a WPA
    version. *)
Theorem get_encryption_total (cell : list string) :
  (get_encryption cell = "Open"
   \/ get_encryption cell = "WEP"
   \/ exists version, get_encryption cell = "WPA v." +:+ version)
  /\ (matching_line cell "Encryption key:" = None ->
      get_encryption cell <> "Open"
      /\ (omap wpa_version cell = [] -> get_encryption cell = "WEP")).
Proof.
  split.
  - destruct (decide (matching_line cell "Encryption key:" = Some "off")) as [H|H].
    + left. by apply get_encryption_off.
    + right. rewrite (get_encryption_else cell H).
      destruct (last (omap wpa_version cell)) as [v|]; simpl; eauto.
  - intros H.
    assert (Hoff : matching_line cell "Encryption key:" <> Some "off") by congruence.
    rewrite (get_encryption_else cell Hoff). split.
    + by destruct (last (omap wpa_version cell)).
    + by intros ->.
Qed.

Lemma get_encryption_total_witness :
  get_encryption ["ESSID:x"] <> "Open" /\ get_encryption ["ESSID:x"] = "WEP".
Proof.
  destruct (get_encryption_total ["ESSID:x"]) as [_ H].
  destruct (H eq_refl) as [Hopen Hwep].
  split; [exact Hopen | exact (Hwep eq_refl)].
Defined.

(** ** Quality and Signal *)

(** C6, as the claim states it, fails on a [Quality=] line whose first token
    is not a fraction, and on one without ["Signal level="]: the extractors
    raise. *)
Lemma get_quality_malformed_raises :
  matching_line ["Quality=abc"] "Quality=" = Some "abc"
  /\ get_quality ["Quality=abc"] = Raise ValueError
  /\ get_quality ["Quality=70"] = Raise IndexError
  /\ get_quality ["Quality=70/0"] = Raise ZeroDivisionError
  /\ get_signal_level ["Quality=70/70"] = Raise IndexError.
Proof. repeat split; reflexivity. Qed.

(** A ratio that is finite while its product with 100 is not: [round]
    raises.  And the Signal rule does not look at the fraction. *)
Lemma get_quality_overflow :
  get_quality ["Quality=1e307/1  Signal level=-43 dBm"] = Raise OverflowError
  /\ get_signal_level ["Quality=abc Signal level=-43 dBm"] = Ok (PStr "-43 dBm").
Proof. split; vm_compute; reflexivity. Qed.

Lemma round_finite (x : spec_float) :
  finite x -> exists n, PyFloat.round x = Ok n.
Proof. destruct x; simpl; by eauto. Qed.

(** C6 (amended): take a cell whose first line that starts with ["Quality="]
    continues with [line].  When the first token of [line] has a ["/"], a
    number before it, a number other than zero between it and the next
    ["/"], and the ratio times 100 is finite, the Quality extractor returns
    that product, rounded, right-justified to width 3 and [" %"].  Whatever
    the first token is, the Signal extractor returns what stands between the
    first ["Signal level="] of [line] and the next one, and raises
    [IndexError] when [line] has no ["Signal level="]. *)
Theorem get_quality_signal (cell : list string) (line : string) :
  matching_line cell "Quality=" = Some line ->
  (forall (ws token rest : string) (i : nat) (x y ratio : spec_float),
     line = ws +:+ token +:+ rest -> blank ws -> solid token -> token_end rest ->
     Py.find "/" token = Some i ->
     PyFloat.float (Py.slice_to i token) = Ok x ->
     PyFloat.float (first_piece "/" (Py.slice_from (i + 1) token)) = Ok y ->
     PyFloat.div x y = Ok ratio ->
     finite (PyFloat.mul ratio (PyFloat.of_int 100)) ->
     exists percent : Z,
       PyFloat.round (PyFloat.mul ratio (PyFloat.of_int 100)) = Ok percent
       /\ get_quality cell = Ok (PStr (quality_format percent)))
  /\ (forall j : nat,
        Py.find "Signal level=" line = Some j ->
        get_signal_level cell
        = Ok (PStr (first_piece "Signal level=" (Py.slice_from (j + 13) line))))
  /\ (Py.find "Signal level=" line = None ->
      get_signal_level cell = Raise IndexError).
Proof.
  intros Hline. split; [|split].
  - intros ws token rest i x y ratio -> Hws Htok Hrest Hi Hx Hy Hratio Hfinite.
    destruct (round_finite _ Hfinite) as [percent Hpercent].
    exists percent. split; [done|].
    unfold get_quality. rewrite Hline, split_ws_first by done.
    destruct (split_on_two_pieces "/" token i) as [pieces ->]; [done..|].
    change (Py.len "/") with 1%nat.
    rewrite Hx. cbn [mbind result_bind]. rewrite Hy. cbn [mbind result_bind].
    rewrite Hratio. cbn [mbind result_bind]. by rewrite Hpercent.
  - intros j Hj. unfold get_signal_level. rewrite Hline.
    by destruct (split_on_two_pieces "Signal level=" line j) as [pieces ->].
  - intros Hnone. unfold get_signal_level. rewrite Hline.
    by rewrite split_on_None.
Qed.

Lemma get_quality_signal_witness :
  let cell := ["Quality=70/70  Signal level=-43 dBm"] in
  get_quality cell = Ok (PStr "100 %")
  /\ get_signal_level cell = Ok (PStr "-43 dBm").
Proof.
  destruct (get_quality_signal ["Quality=70/70  Signal level=-43 dBm"]
              "70/70  Signal level=-43 dBm" eq_refl) as (Hquality & Hsignal & _).
  destruct (Hquality "" "70/70" "  Signal level=-43 dBm" 2%nat
              (PyFloat.of_int 70) (PyFloat.of_int 70) (PyFloat.of_int 1))
    as (percent & Hround & Hq).
  - reflexivity.
  - constructor.
  - split; [discriminate | repeat constructor].
  - reflexivity.
  - reflexivity.
  - reflexivity.
  - reflexivity.
  - reflexivity.
  - exact I.
  - vm_compute in Hround. injection Hround as <-.
    split; [exact Hq | exact (Hsignal 7%nat eq_refl)].
Defined.

(** ** CellParser *)

Lemma get_name_str (cell : list string) (v : pyval) :
  get_name cell = Ok v -> exists s, v = PStr s.
Proof.
  unfold get_name. destruct (matching_line cell "ESSID:"); [|done].
  intros [= <-]. eauto.
Qed.

Lemma get_quality_str (cell : list string) (v : pyval) :
  get_quality cell = Ok v -> exists s, v = PStr s.
Proof.
  unfold get_quality.
  destruct (matching_line cell "Quality=") as [line|]; [|done].
  destruct (Py.split_ws line) as [|token tokens]; [done|].
  destruct (Py.split_on "/" token) as [|q0 [|q1 quality]]; [done|..].
  - by destruct (PyFloat.float q0).
  - destruct (PyFloat.float q0) as [x|]; [|done]. cbn [mbind result_bind].
    destruct (PyFloat.float q1) as [y|]; [|done]. cbn [mbind result_bind].
    destruct (PyFloat.div x y) as [ratio|]; [|done]. cbn [mbind result_bind].
    destruct (PyFloat.round _) as [percent|]; [|done].
    intros [= <-]. eauto.
Qed.

Lemma get_signal_level_str (cell : list string) (v : pyval) :
  get_signal_level cell = Ok v -> exists s, v = PStr s.
Proof.
  unfold get_signal_level.
  destruct (matching_line cell "Quality=") as [line|]; [|done].
  destruct (Py.split_on "Signal level=" line) as [|before [|level pieces]]; [done..|].
  intros [= <-]. eauto.
Qed.

(** The rules are applied in the order Name, Quality, Channel, Encryption,
    Address, Signal; the first that raises ends the parse. *)
Lemma parse_cell_unfold (cell : list string) :
  parse_cell cell
  = name ← get_name cell;
    quality ← get_quality cell;
    signal ← get_signal_level cell;
    Ok (record_of cell name quality signal).
Proof.
  unfold parse_cell, RULES, record_of. cbn [apply_rules].
  destruct (get_name cell) as [name|]; [|done]. cbn [mbind result_bind].
  destruct (get_quality cell) as [quality|]; [|done]. cbn [mbind result_bind].
  unfold get_channel, get_address. cbn [mbind result_bind].
  by destruct (get_signal_level cell).
Qed.

(** A cell without an [ESSID:] line, or without a [Quality=] line, has no
    record. *)
Lemma parse_cell_raises (cell : list string) :
  (matching_line cell "ESSID:" = None -> parse_cell cell = Raise TypeError)
  /\ (matching_line cell "Quality=" = None ->
      exists e, parse_cell cell = Raise e).
Proof.
  rewrite parse_cell_unfold. unfold get_name, get_quality. split.
  - by intros ->.
  - intros ->. destruct (matching_line cell "ESSID:"); eauto.
Qed.

(** The Quality of a parsed cell is a string: the sort accepts the record. *)
Lemma parse_cell_has_quality (cell : list string) (el : record) :
  parse_cell cell = Ok el -> has_quality el.
Proof.
  rewrite parse_cell_unfold.
  destruct (get_name cell) as [name|]; [|done]. cbn [mbind result_bind].
  destruct (get_quality cell) as [quality|] eqn:Hq; [|done]. cbn [mbind result_bind].
  destruct (get_signal_level cell) as [signal|]; [|done].
  intros [= <-]. destruct (get_quality_str cell quality Hq) as [q ->].
  exists q. done.
Qed.

(** C2, as the claim states it, fails: a field whose rule finds no line is
    not the empty string.  Address is [None] here, and a cell without an
    [ESSID:] line has no record at all. *)
Lemma parse_cell_not_found_not_empty :
  let cell := ["ESSID:" +:+ quoted "home"; "Quality=70/70  Signal level=-43 dBm"] in
  matching_line cell "Address: " = None
  /\ (exists el, parse_cell cell = Ok el
                 /\ el !! "Address" = Some PNone
                 /\ el !! "Address" <> Some (PStr ""))
  /\ parse_cell ["Address: 00:11:22:33:44:55"] = Raise TypeError.
Proof.
  split; [reflexivity|]. split; [|reflexivity].
  eexists. split; [reflexivity|]. split; [reflexivity | discriminate].
Qed.

(** C2 (amended): when the Name, Quality and Signal rules return on a cell,
    the record maps each of the six columns, and nothing else, to the answer
    of its rule; Channel and Address are [None] when the cell has no line
    for them, and Encryption is then what [get_encryption] falls back to. *)
Theorem parse_cell_record (cell : list string) (name quality signal : pyval) :
  get_name cell = Ok name ->
  get_quality cell = Ok quality ->
  get_signal_level cell = Ok signal ->
  exists el : record,
    parse_cell cell = Ok el
    /\ (forall key, key ∈ COLUMNS <-> is_Some (el !! key))
    /\ el !! "Name" = Some name
    /\ el !! "Quality" = Some quality
    /\ el !! "Signal" = Some signal
    /\ el !! "Channel" = Some (of_option (matching_line cell "Channel:"))
    /\ el !! "Address" = Some (of_option (matching_line cell "Address: "))
    /\ el !! "Encryption" = Some (PStr (get_encryption cell)).
Proof.
  intros Hname Hquality Hsignal. exists (record_of cell name quality signal).
  split.
  { rewrite parse_cell_unfold, Hname, Hquality, Hsignal. done. }
  split; [|by repeat split].
  intros key. unfold record_of, COLUMNS.
  rewrite <- elem_of_dom, !dom_insert_L, dom_empty_L.
  rewrite !elem_of_cons, elem_of_nil.
  rewrite !elem_of_union, !elem_of_singleton, elem_of_empty. tauto.
Qed.

Lemma parse_cell_record_witness :
  let cell := ["ESSID:" +:+ quoted "home"; "Quality=70/70  Signal level=-43 dBm"] in
  exists el : record,
    parse_cell cell = Ok el
    /\ (forall key, key ∈ COLUMNS <-> is_Some (el !! key))
    /\ el !! "Name" = Some (PStr "home")
    /\ el !! "Quality" = Some (PStr "100 %")
    /\ el !! "Signal" = Some (PStr "-43 dBm")
    /\ el !! "Channel" = Some (of_option (matching_line cell "Channel:"))
    /\ el !! "Address" = Some (of_option (matching_line cell "Address: "))
    /\ el !! "Encryption" = Some (PStr (get_encryption cell)).
Proof.
  apply (parse_cell_record
           ["ESSID:" +:+ quoted "home"; "Quality=70/70  Signal level=-43 dBm"]
           (PStr "home") (PStr "100 %") (PStr "-43 dBm")); reflexivity.
Defined.

(** ** The stable descending sort *)

Section StableSortFacts.
Context {A : Type} (lt : A -> A -> bool).

Lemma insert_desc_perm (x : A) (l : list A) : insert_desc lt x l ≡ₚ x :: l.
Proof.
  induction l as [|y l IH]; simpl; [done|].
  destruct (lt x y); [|done].
  rewrite IH. apply Permutation_swap.
Qed.

Lemma sort_desc_perm (l : list A) : sort_desc lt l ≡ₚ l.
Proof.
  induction l as [|x l IH]; simpl; [done|].
  by rewrite insert_desc_perm, IH.
Qed.

Lemma insert_desc_hd (x y : A) (l : list A) :
  lt y x = false -> HdRel (not_below lt) y l -> HdRel (not_below lt) y (insert_desc lt x l).
Proof.
  intros Hyx Hhd. destruct l as [|z l]; simpl.
  - by constructor.
  - destruct (lt x z); constructor; [by inversion Hhd | done].
Qed.

Section Asymmetric.
Hypothesis lt_asym : forall x y, lt x y = true -> lt y x = false.

Lemma insert_desc_sorted (x : A) (l : list A) :
  Sorted (not_below lt) l -> Sorted (not_below lt) (insert_desc lt x l).
Proof.
  induction 1 as [|y l Hl IH Hhd]; simpl.
  - by repeat constructor.
  - destruct (lt x y) eqn:Hxy.
    + constructor; [done|]. apply insert_desc_hd; [by apply lt_asym | done].
    + constructor; [by constructor | by constructor].
Qed.

Lemma sort_desc_sorted (l : list A) : Sorted (not_below lt) (sort_desc lt l).
Proof.
  induction l as [|x l IH]; simpl; [constructor|].
  by apply insert_desc_sorted.
Qed.
End Asymmetric.

(** Sorting leaves a list that is already in descending order as it is. *)
Lemma sort_desc_sorted_id (l : list A) : Sorted (not_below lt) l -> sort_desc lt l = l.
Proof.
  induction 1 as [|x l Hl IH Hhd]; simpl; [done|].
  rewrite IH. destruct Hhd as [|y l Hxy]; simpl; [done|].
  unfold not_below in Hxy. by rewrite Hxy.
Qed.

Lemma sort_desc_idemp :
  (forall x y, lt x y = true -> lt y x = false) ->
  forall l, sort_desc lt (sort_desc lt l) = sort_desc lt l.
Proof. intros Hasym l. by apply sort_desc_sorted_id, sort_desc_sorted. Qed.

(** Elements that the comparison does not separate keep their order. *)
Section Stable.
Context (P : A -> Prop) `{!forall x, Decision (P x)}.
Hypothesis P_tied : forall x y, P x -> P y -> lt x y = false.

Lemma insert_desc_filter (x : A) (l : list A) :
  filter P (insert_desc lt x l) = filter P (x :: l).
Proof.
  induction l as [|y l IH]; simpl; [done|].
  destruct (lt x y) eqn:Hxy; [|done].
  rewrite filter_cons, IH, !filter_cons.
  destruct (decide (P x)) as [Hx|Hx], (decide (P y)) as [Hy|Hy]; try done.
  rewrite (P_tied x y Hx Hy) in Hxy. discriminate.
Qed.

Lemma sort_desc_filter (l : list A) : filter P (sort_desc lt l) = filter P l.
Proof.
  induction l as [|x l IH]; simpl; [done|].
  by rewrite insert_desc_filter, !filter_cons, IH.
Qed.
End Stable.

(** Two comparisons that agree on the elements of a list sort it alike. *)
Lemma insert_desc_ext (lt' : A -> A -> bool) (x : A) (l : list A) :
  (forall y, y ∈ l -> lt x y = lt' x y) -> insert_desc lt x l = insert_desc lt' x l.
Proof.
  induction l as [|y l IH]; intros H; simpl; [done|].
  rewrite <- (H y) by left. rewrite IH; [done|].
  intros z Hz. apply H. by right.
Qed.

Lemma sort_desc_ext (lt' : A -> A -> bool) (l : list A) :
  (forall x y, x ∈ l -> y ∈ l -> lt x y = lt' x y) ->
  sort_desc lt l = sort_desc lt' l.
Proof.
  induction l as [|x l IH]; intros H; simpl; [done|].
  rewrite <- IH.
  - apply insert_desc_ext. intros y Hy. apply H; [left|right].
    by rewrite <- (sort_desc_perm l).
  - intros y z Hy Hz. apply H; by right.
Qed.
End StableSortFacts.

(** ** [sort_cells] *)

Lemma string_ltb_irrefl (s : string) : String.ltb s s = false.
Proof.
  unfold String.ltb.
  pose proof (String.compare_antisym s s) as H.
  by destruct (String.compare s s).
Qed.

Lemma string_ltb_asym (s t : string) : String.ltb s t = true -> String.ltb t s = false.
Proof.
  unfold String.ltb. rewrite (String.compare_antisym t s).
  by destruct (String.compare s t).
Qed.

Lemma quality_lt_asym (x y : record) : quality_lt x y = true -> quality_lt y x = false.
Proof. apply string_ltb_asym. Qed.

Lemma has_quality_key (el : record) :
  has_quality el -> sort_key el = Ok (PStr (quality_of el)).
Proof. intros [q Hq]. unfold sort_key, quality_of. by rewrite Hq. Qed.

Lemma mapM_sort_key (cells : list record) :
  Forall has_quality cells ->
  mapM sort_key cells = Ok (map (fun el => PStr (quality_of el)) cells).
Proof.
  induction 1 as [|el cells Hel _ IH]; [done|].
  cbn [mapM]. rewrite (has_quality_key el Hel), IH. done.
Qed.

(** On records that have a Quality string the sort returns: it neither
    misses a key nor compares [None]. *)
Lemma sort_cells_ok (cells : list record) :
  Forall has_quality cells -> sort_cells cells = Ok (sort_desc quality_lt cells).
Proof.
  intros H. unfold sort_cells. rewrite (mapM_sort_key cells H). simpl.
  assert (forallb is_str (map (fun el => PStr (quality_of el)) cells) = true) as ->.
  { clear H. by induction cells. }
  by rewrite andb_false_r.
Qed.

(** C7: sorting a sorted list of records again gives the same list, and
    for each Quality string the records that carry it are in the same order
    after the sort as before. *)
Theorem sort_cells_idempotent_stable (cells : list record) :
  Forall has_quality cells ->
  exists sorted,
    sort_cells cells = Ok sorted
    /\ sort_cells sorted = Ok sorted
    /\ forall q : string,
         filter (fun el : record => el !! "Quality" = Some (PStr q)) sorted
         = filter (fun el : record => el !! "Quality" = Some (PStr q)) cells.
Proof.
  intros H. exists (sort_desc quality_lt cells). split; [|split].
  - by apply sort_cells_ok.
  - rewrite sort_cells_ok.
    + f_equal. apply sort_desc_idemp, quality_lt_asym.
    + by rewrite (sort_desc_perm quality_lt cells).
  - intros q. apply sort_desc_filter. intros x y Hx Hy.
    unfold quality_lt, quality_of. rewrite Hx, Hy. apply string_ltb_irrefl.
Qed.

(** C10: the sorted list is a permutation of the list given. *)
Theorem sort_cells_permutation (cells : list record) :
  Forall has_quality cells ->
  exists sorted, sort_cells cells = Ok sorted /\ cells ≡ₚ sorted.
Proof.
  intros H. exists (sort_desc quality_lt cells). split.
  - by apply sort_cells_ok.
  - symmetry. apply sort_desc_perm.
Qed.

Lemma sort_cells_idempotent_stable_witness :
  let cells := [access_point "a" " 50 %"; access_point "b" "100 %";
                access_point "c" " 50 %"] in
  exists sorted,
    sort_cells cells = Ok sorted
    /\ sort_cells sorted = Ok sorted
    /\ forall q : string,
         filter (fun el : record => el !! "Quality" = Some (PStr q)) sorted
         = filter (fun el : record => el !! "Quality" = Some (PStr q)) cells.
Proof.
  apply (sort_cells_idempotent_stable
           [access_point "a" " 50 %"; access_point "b" "100 %";
            access_point "c" " 50 %"]).
  repeat constructor; eexists; vm_compute; reflexivity.
Defined.

Lemma sort_cells_permutation_witness :
  let cells := [access_point "a" " 50 %"; access_point "b" "100 %"] in
  exists sorted, sort_cells cells = Ok sorted /\ cells ≡ₚ sorted.
Proof.
  apply (sort_cells_permutation
           [access_point "a" " 50 %"; access_point "b" "100 %"]).
  repeat constructor; eexists; vm_compute; reflexivity.
Defined.

(** ** The formatted percentage and its order *)

Lemma quality_format_ltb (a b : Z) :
  (0 <= a <= 100)%Z -> (0 <= b <= 100)%Z ->
  String.ltb (quality_format a) (quality_format b) = (a <? b)%Z.
Proof.
  intros Ha Hb.
  assert (forallb (fun m =>
            forallb (fun n =>
              Bool.eqb (String.ltb (quality_format (Z.of_nat m))
                                   (quality_format (Z.of_nat n)))
                       (Z.of_nat m <? Z.of_nat n)%Z)
              (seq 0 101)) (seq 0 101) = true) as Hall
    by (vm_compute; reflexivity).
  rewrite forallb_forall in Hall.
  specialize (Hall (Z.to_nat a)). rewrite forallb_forall in Hall.
  specialize (Hall ltac:(apply in_seq; lia) (Z.to_nat b) ltac:(apply in_seq; lia)).
  rewrite !Z2Nat.id in Hall by lia.
  by apply Bool.eqb_prop in Hall.
Qed.

(** C8: for whole percentages [0 <= a < b <= 100] the formatted string of
    [a] is below that of [b], so that on records whose Quality is such a
    string the sort by the string is the sort by the number. *)
Theorem quality_format_order (a b : Z) (percent : record -> Z) (cells : list record) :
  (0 <= a)%Z -> (a < b)%Z -> (b <= 100)%Z ->
  Forall (quality_is_percent percent) cells ->
  String.ltb (quality_format a) (quality_format b) = true
  /\ sort_cells cells
     = Ok (sort_desc (fun x y => (percent x <? percent y)%Z) cells).
Proof.
  intros Ha Hab Hb Hcells. split.
  - rewrite quality_format_ltb by lia. by apply Z.ltb_lt.
  - rewrite sort_cells_ok.
    + f_equal. apply sort_desc_ext. intros x y Hx Hy.
      rewrite Forall_forall in Hcells.
      destruct (Hcells x Hx) as [Hpx Hqx], (Hcells y Hy) as [Hpy Hqy].
      unfold quality_lt, quality_of. rewrite Hqx, Hqy.
      by apply quality_format_ltb.
    + eapply Forall_impl; [exact Hcells|]. intros el [_ Hq]. by eexists.
Qed.

Lemma quality_format_order_witness :
  let cells := [access_point "a" "  5 %"; access_point "b" "100 %";
                access_point "c" " 50 %"] in
  String.ltb (quality_format 5) (quality_format 50) = true
  /\ sort_cells cells
     = Ok (sort_desc (fun x y => (percent_of x <? percent_of y)%Z) cells).
Proof.
  apply (quality_format_order 5 50 percent_of
           [access_point "a" "  5 %"; access_point "b" "100 %";
            access_point "c" " 50 %"]); [lia | lia | lia |].
  repeat constructor; vm_compute; congruence.
Defined.

(** ** CellSegmenter *)

Lemma append_to_last_snoc (cells : list (list string)) (cell : list string)
    (line : string) :
  append_to_last (cells ++ [cell]) line = cells ++ [cell ++ [line]].
Proof.
  unfold append_to_last. rewrite length_app. simpl.
  replace (length cells + 1 - 1)%nat with (length cells + 0)%nat by lia.
  by rewrite alter_app_r.
Qed.

Lemma segment_step_delimiter (cells : list (list string)) (line : string) :
  String.prefix "Cell " line = true ->
  segment_step cells line
  = cells ++ [[Py.strip (Py.slice_last 27 (Py.slice_from 5 line))]].
Proof.
  intros H. apply match_prefix in H as [rest Hrest].
  unfold segment_step. rewrite Hrest.
  assert (rest = Py.slice_from 5 line) as ->.
  { unfold match_ in Hrest. by destruct (String.eqb _ _); simplify_eq. }
  apply (append_to_last_snoc cells []).
Qed.

Lemma segment_step_other (cells : list (list string)) (cell : list string)
    (line : string) :
  String.prefix "Cell " line = false ->
  segment_step (cells ++ [cell]) line = cells ++ [cell ++ [Py.strip line]].
Proof.
  intros H. apply match_prefix_false in H.
  unfold segment_step. rewrite H. apply append_to_last_snoc.
Qed.

(** The loop, started in the middle of a cell: the lines up to the next
    delimiter join the cell being read, the others make the cells to come. *)
Lemma fold_segment_step (lines : list string) (cells : list (list string))
    (cell : list string) :
  fold_left segment_step lines (cells ++ [cell])
  = cells ++ [cell ++ cell_body lines] ++ cells_of lines.
Proof.
  revert cells cell. induction lines as [|line lines IH]; intros cells cell.
  - simpl. by rewrite app_nil_r.
  - cbn [fold_left cell_body cells_of].
    destruct (String.prefix "Cell " line) eqn:Hline.
    + rewrite segment_step_delimiter by done. rewrite IH.
      rewrite app_nil_r, <- !app_assoc. done.
    + rewrite segment_step_other by done. rewrite IH.
      by rewrite <- app_assoc.
Qed.

Lemma segment_cells_cells_of (lines : list string) :
  segment_cells lines = cells_of lines.
Proof.
  unfold segment_cells.
  change [[]] with (@nil (list string) ++ [[]]).
  by rewrite fold_segment_step.
Qed.

Lemma length_cells_of (lines : list string) :
  length (cells_of lines)
  = length (List.filter (String.prefix "Cell ") lines).
Proof.
  induction lines as [|line lines IH]; simpl; [done|].
  destruct (String.prefix "Cell " line); simpl; by rewrite IH.
Qed.

(** C5, as the claim states it, fails for the first line of a cell: it is
    the last 27 characters of the rest of the delimiter line with the blanks
    around them removed, not those characters themselves. *)
Lemma segment_cells_first_line_stripped :
  let line := "Cell 01 - Address: 00:11:22:33:44:55" in
  match_ line "Cell " = Some "01 - Address: 00:11:22:33:44:55"
  /\ Py.slice_last 27 "01 - Address: 00:11:22:33:44:55" = " Address: 00:11:22:33:44:55"
  /\ segment_cells [line] = [["Address: 00:11:22:33:44:55"]]
  /\ segment_cells [line] <> [[Py.slice_last 27 "01 - Address: 00:11:22:33:44:55"]].
Proof. done. Qed.

(** C5 (amended): the segmenter makes one cell for each line that begins
    with ["Cell "], in the order of the text; a cell is the last 27
    characters of the rest of its delimiter line, stripped, followed by the
    stripped lines up to the next delimiter; the lines before the first
    delimiter are dropped, and a text without a delimiter gives no cell. *)
Theorem segment_cells_spec (lines : list string) :
  segment_cells lines = cells_of lines
  /\ length (segment_cells lines)
     = length (List.filter (String.prefix "Cell ") lines)
  /\ (List.filter (String.prefix "Cell ") lines = [] -> segment_cells lines = []).
Proof.
  rewrite segment_cells_cells_of. split; [done|]. split.
  - apply length_cells_of.
  - intros H. apply length_zero_iff_nil. by rewrite length_cells_of, H.
Qed.

Lemma segment_cells_spec_witness :
  segment_cells ["iwlist output"; ""] = [].
Proof.
  apply (segment_cells_spec ["iwlist output"; ""]). reflexivity.
Defined.

(** ** ConnectionStatusParser *)

(** [count] is positive exactly when [find] succeeds. *)
Lemma count_aux_find_aux (sub l : list ascii) (skip i : nat) :
  sub <> [] ->
  (0 < Py.count_aux sub skip l)%nat <-> is_Some (Py.find_aux sub (drop skip l) i).
Proof.
  intros Hsub. revert skip i. induction l as [|c l IH]; intros skip i.
  - rewrite drop_nil. destruct sub; [done|]. simpl.
    split; [lia | by intros [? ?]].
  - destruct skip as [|skip]; simpl.
    + destruct (Py.strip_prefix sub (c :: l)) eqn:Hp.
      * split; [by eexists | lia].
      * apply (IH 0%nat).
    + apply IH.
Qed.

Lemma count_find (sub s : string) :
  sub <> "" -> (0 <? Py.count sub s)%nat = bool_decide (is_Some (Py.find sub s)).
Proof.
  intros Hsub. unfold Py.count, Py.find.
  assert (Py.chars sub <> []) as Hchars.
  { intros H. apply Hsub, chars_inj. by rewrite H. }
  pose proof (count_aux_find_aux (Py.chars sub) (Py.chars s) 0 0 Hchars) as H.
  rewrite drop_0 in H.
  destruct (0 <? _)%nat eqn:Hc.
  - apply Nat.ltb_lt in Hc. symmetry. by apply bool_decide_eq_true, H.
  - apply Nat.ltb_ge in Hc. symmetry. apply bool_decide_eq_false.
    intros Hf. apply H in Hf. lia.
Qed.

(** A list with a first line never raises: the answer is read off that
    line, and no other line is looked at. *)
Lemma iwconfig_parse_first_line (first : string) (rest : list string) :
  iwconfig_parse (Lines (first :: rest)) = Ok (connected_name first).
Proof.
  unfold iwconfig_parse, connected_name, Py.index.
  rewrite count_find by done.
  destruct (Py.find "ESSID:" (Py.strip first)) as [i|]; simpl; [|done].
  by destruct (String.eqb _ "off/any").
Qed.

(** C4: the code at an empty list of lines.  [lines[0]] raises
    [IndexError]; the sentinel is returned for an argument that is not a
    list, for a first line without ["ESSID:"] and for ["off/any"]. *)
Theorem iwconfig_parse_empty_list :
  iwconfig_parse (Lines []) = Raise IndexError
  /\ iwconfig_parse NotAList = Ok "*"
  /\ iwconfig_parse (Lines [""]) = Ok "*"
  /\ iwconfig_parse (Lines ["wlan0  IEEE 802.11"; "ESSID:home"]) = Ok "*"
  /\ iwconfig_parse (Lines ["wlan0  ESSID:off/any"]) = Ok "*"
  /\ iwconfig_parse
       (Lines [" wlan0  IEEE 802.11  ESSID:" +:+ quoted "home-net" +:+ "  "])
     = Ok "home-net".
Proof. repeat split; reflexivity. Qed.

(** ** ScanOrchestrator *)

Lemma mapM_parse_cell_has_quality (cells : list (list string)) (records : list record) :
  mapM parse_cell cells = Ok records -> Forall has_quality records.
Proof.
  revert records. induction cells as [|cell cells IH]; intros records.
  - intros [= <-]. constructor.
  - cbn [mapM]. destruct (parse_cell cell) as [el|] eqn:Hel; [|done].
    cbn [mbind result_bind].
    destruct (mapM parse_cell cells) as [els|]; [|done].
    intros [= <-]. constructor; [by eapply parse_cell_has_quality | by apply IH].
Qed.

(** The scan parser returns exactly when every cell parses; the sort of
    the parsed cells cannot raise. *)
Lemma iwlist_parse_unfold (lines : list string) :
  iwlist_parse lines
  = records ← mapM parse_cell (segment_cells lines);
    Ok (sort_desc quality_lt records).
Proof.
  unfold iwlist_parse.
  destruct (mapM parse_cell (segment_cells lines)) as [records|] eqn:H; [|done].
  cbn [mbind result_bind]. by eapply sort_cells_ok, mapM_parse_cell_has_quality.
Qed.

(** C3, as the claim states it, fails: a cell without a line that a rule
    needs, or with a Quality that is not a fraction, makes [iwlistparse]
    raise. *)
Lemma iwlistparse_raises :
  iwlistparse (handler_of ["Cell 01 - Address: 00:11:22:33:44:55"])
    (handler_of [""]) "wlan0" "all" true
  = Raise TypeError
  /\ iwlistparse
       (handler_of ["Cell 01 - Address: 00:11:22:33:44:55";
                    "ESSID:" +:+ quoted "home"; "Quality=abc"])
       (handler_of [""]) "wlan0" "all" true
     = Raise ValueError.
Proof. split; reflexivity. Qed.

(** C3 (amended): with a switch other than ["all"] and ["connected"]
    [iwlistparse] returns the default result; with ["connected"] and at
    least one line of output it returns the name read off the first line;
    with ["all"] it returns the sorted records when every cell parses, and
    raises what the first failing cell raises otherwise.  The error of the
    collaborator is passed on as it is. *)
Theorem iwlistparse_result
    (iwlist_handler iwconfig_handler : string -> list string * option string)
    (interface switch : string) (headers : bool) :
  (switch <> "all" -> switch <> "connected" ->
   iwlistparse iwlist_handler iwconfig_handler interface switch headers
   = Ok {| currently_connected := "*"; headers := headers;
           access_points := []; error := None |})
  /\ (switch = "connected" ->
      forall first rest err, iwconfig_handler interface = (first :: rest, err) ->
      iwlistparse iwlist_handler iwconfig_handler interface switch headers
      = Ok {| currently_connected := connected_name first; headers := headers;
              access_points := []; error := err |})
  /\ (switch = "all" ->
      forall lines err, iwlist_handler interface = (lines, err) ->
      match mapM parse_cell (segment_cells lines) with
      | Ok records =>
          iwlistparse iwlist_handler iwconfig_handler interface switch headers
          = Ok {| currently_connected := "*"; headers := headers;
                  access_points := sort_desc quality_lt records; error := err |}
      | Raise e =>
          iwlistparse iwlist_handler iwconfig_handler interface switch headers
          = Raise e
      end).
Proof.
  unfold iwlistparse. split; [|split].
  - intros Hall Hconnected.
    apply String.eqb_neq in Hall, Hconnected. by rewrite Hall, Hconnected.
  - intros -> first rest err ->.
    change (String.eqb "connected" "connected") with true.
    change (String.eqb "connected" "all") with false. cbv beta iota.
    by rewrite iwconfig_parse_first_line.
  - intros -> lines err ->.
    change (String.eqb "all" "connected") with false.
    change (String.eqb "all" "all") with true. cbv beta iota.
    rewrite iwlist_parse_unfold.
    by destruct (mapM parse_cell (segment_cells lines)).
Qed.

Lemma iwlistparse_result_witness :
  iwlistparse
    (handler_of ["Cell 01 - Address: 00:11:22:33:44:55";
                 "ESSID:" +:+ quoted "home"; "Quality=70/70  Signal level=-43 dBm"])
    (handler_of [""]) "wlan0" "all" true
  = Ok {| currently_connected := "*"; headers := true;
          access_points :=
            sort_desc quality_lt
              [record_of
                 ["Address: 00:11:22:33:44:55"; "ESSID:" +:+ quoted "home";
                  "Quality=70/70  Signal level=-43 dBm"]
                 (PStr "home") (PStr "100 %") (PStr "-43 dBm")];
          error := None |}.
Proof.
  destruct (iwlistparse_result
              (handler_of ["Cell 01 - Address: 00:11:22:33:44:55";
                           "ESSID:" +:+ quoted "home";
                           "Quality=70/70  Signal level=-43 dBm"])
              (handler_of [""]) "wlan0" "all" true) as (_ & _ & Hall).
  exact (Hall eq_refl _ None eq_refl).
Defined.

(** * Further properties of the code *)

(** ** LineMatcher, continued *)

(** X1: [match] answers with [rest] exactly when the line is the keyword
    followed by [rest], character for character; it answers [None] exactly
    when the keyword is not a prefix of the line. *)
Theorem match_exact (line keyword rest : string) :
  (match_ line keyword = Some rest <-> line = keyword +:+ rest)
  /\ (match_ line keyword = None <-> String.prefix keyword line = false).
Proof.
  split; [apply match_Some | symmetry; apply match_prefix_false].
Qed.

Lemma matching_line_None (lines : list string) (keyword : string) :
  matching_line lines keyword = None
  <-> Forall (fun line => String.prefix keyword line = false) lines.
Proof.
  induction lines as [|line lines IH]; simpl.
  - split; [constructor | done].
  - destruct (match_ line keyword) as [rest|] eqn:Hline.
    + split; [done|]. intros H. apply Forall_cons_1 in H as [H _].
      apply match_prefix_false in H. congruence.
    + rewrite IH. apply match_prefix_false in Hline.
      split; [by constructor | by intros [_ ?]%Forall_cons_1].
Qed.

Lemma matching_line_Some (lines : list string) (keyword rest : string) :
  matching_line lines keyword = Some rest
  <-> exists before after,
        lines = before ++ (keyword +:+ rest) :: after
        /\ Forall (fun line => String.prefix keyword line = false) before.
Proof.
  induction lines as [|line lines IH]; simpl.
  - split; [done|]. intros (before & after & H & _). by destruct before.
  - destruct (match_ line keyword) as [rest'|] eqn:Hline.
    + split.
      * intros [= ->]. apply match_Some in Hline as ->.
        exists [], lines. by split; [|constructor].
      * intros ([|line' before] & after & H & Hbefore); simplify_eq/=.
        -- f_equal. symmetry. by apply match_Some in Hline; simplify_eq.
        -- apply Forall_cons_1 in Hbefore as [Hl _].
           apply match_prefix_false in Hl. congruence.
    + rewrite IH. apply match_prefix_false in Hline. split.
      * intros (before & after & -> & Hbefore).
        exists (line :: before), after. by split; [|constructor].
      * intros ([|line' before] & after & H & Hbefore); simplify_eq/=.
        -- assert (String.prefix keyword (keyword +:+ rest) = true) as Htrue
             by (apply prefix_append; eauto).
           congruence.
        -- apply Forall_cons_1 in Hbefore as [_ Hbefore]. eauto.
Qed.

(** X2: [matching_line] answers with what follows the keyword on the first
    line that begins with it, whatever comes after that line; it answers
    [None] exactly when no line begins with the keyword. *)
Theorem matching_line_first (lines : list string) (keyword rest : string) :
  (matching_line lines keyword = Some rest
   <-> exists before after,
         lines = before ++ (keyword +:+ rest) :: after
         /\ Forall (fun line => String.prefix keyword line = false) before)
  /\ (matching_line lines keyword = None
      <-> Forall (fun line => String.prefix keyword line = false) lines).
Proof. split; [apply matching_line_Some | apply matching_line_None]. Qed.

(** ** Name and Encryption *)

Lemma slice_inner_wrapped (a b : ascii) (s : string) :
  Py.slice_inner (String a (s +:+ String b "")) = s.
Proof.
  unfold Py.slice_inner.
  change (Py.chars (String a (s +:+ String b "")))
    with (a :: Py.chars (s +:+ String b "")).
  rewrite chars_append. simpl. rewrite drop_0, length_app. simpl.
  replace (length (Py.chars s) + 1 - 0 - 1)%nat with (length (Py.chars s)) by lia.
  by rewrite take_app_length, str_chars.
Qed.

(** X3: when the first [ESSID:] line of a cell carries a name between two
    characters (the double quotes that [iwlist] prints), [get_name] returns
    the name without them. *)
Theorem get_name_unwraps (cell : list string) (a b : ascii) (name : string) :
  matching_line cell "ESSID:" = Some (String a (name +:+ String b "")) ->
  get_name cell = Ok (PStr name).
Proof.
  intros H. unfold get_name. by rewrite H, slice_inner_wrapped.
Qed.

Lemma get_name_unwraps_witness :
  get_name ["Address: 00:11:22:33:44:55"; "ESSID:" +:+ quoted "home net"]
  = Ok (PStr "home net").
Proof.
  apply (get_name_unwraps
           ["Address: 00:11:22:33:44:55"; "ESSID:" +:+ quoted "home net"]
           dquote dquote "home net").
  reflexivity.
Defined.

(** X4: a cell whose first [Encryption key:] line says [off] is ["Open"],
    whatever the lines before and after it announce. *)
Theorem get_encryption_open (before after : list string) :
  Forall (fun line => String.prefix "Encryption key:" line = false) before ->
  get_encryption (before ++ "Encryption key:off" :: after) = "Open".
Proof.
  intros H. apply get_encryption_off, matching_line_Some. eauto.
Qed.

Lemma get_encryption_open_witness :
  get_encryption ["IE:WPA Version 1"; "Encryption key:off"; "IE:WPA Version 2";
                  "Encryption key:on"]
  = "Open".
Proof.
  apply (get_encryption_open ["IE:WPA Version 1"]
           ["IE:WPA Version 2"; "Encryption key:on"]).
  repeat constructor.
Defined.

(** ** Quality, continued *)

Lemma get_quality_first_token (cell : list string) (token rest : string) :
  matching_line cell "Quality=" = Some (token +:+ rest) ->
  solid token -> token_end rest ->
  get_quality cell = quality_of_token token.
Proof.
  intros Hline Htoken Hrest. unfold get_quality. rewrite Hline.
  change (token +:+ rest) with ("" +:+ token +:+ rest).
  by rewrite (split_ws_first "" token rest) by (done || constructor).
Qed.

Lemma fraction_checked_all :
  forallb (fun d => forallb (fraction_checked d) (seq 0 (S d))) (seq 1 100) = true.
Proof. vm_compute. reflexivity. Qed.

Lemma append_assoc (s t u : string) : (s +:+ t) +:+ u = s +:+ t +:+ u.
Proof.
  induction s as [|c s IH]; [reflexivity|].
  change (String c ((s +:+ t) +:+ u) = String c (s +:+ t +:+ u)). by f_equal.
Qed.

Lemma solid_forallb (s : string) :
  s <> "" -> forallb (fun c => negb (Py.isspace c)) (Py.chars s) = true -> solid s.
Proof.
  intros Hs H. split; [done|]. apply Forall_forall. intros c Hc.
  rewrite forallb_forall in H. apply negb_true_iff, H. by apply list_elem_of_In.
Qed.

(** X5: for whole numbers [0 <= n <= d] and [1 <= d <= 100], the Quality of
    a cell whose [Quality=] line begins with the fraction [n/d] is a whole
    percentage from 0 to 100 within one half of [100 * n / d], formatted; it
    is the nearest one with ties to even, except for [23/40] and [46/80],
    where the binary64 product is below the tie and the answer is 57. *)
Theorem get_quality_fraction (cell : list string) (n d : Z) (rest : string) :
  (0 <= n)%Z -> (n <= d)%Z -> (1 <= d)%Z -> (d <= 100)%Z -> token_end rest ->
  matching_line cell "Quality="
  = Some (PyFloat.str_of_int n +:+ "/" +:+ PyFloat.str_of_int d +:+ rest) ->
  exists percent : Z,
    get_quality cell = Ok (PStr (quality_format percent))
    /\ (0 <= percent <= 100)%Z
    /\ (2 * Z.abs (100 * n - percent * d) <= d)%Z
    /\ percent = (if (40 * n =? 23 * d)%Z then 57%Z else nearest_even (100 * n) d).
Proof.
  intros Hn Hnd Hd1 Hd Hrest Hline.
  pose proof fraction_checked_all as Hall.
  rewrite forallb_forall in Hall.
  specialize (Hall (Z.to_nat d) ltac:(apply in_seq; lia)).
  rewrite forallb_forall in Hall.
  specialize (Hall (Z.to_nat n) ltac:(apply in_seq; lia)).
  unfold fraction_checked in Hall. rewrite !Z2Nat.id in Hall by lia.
  apply andb_prop in Hall as [Hall Hdist].
  apply andb_prop in Hall as [Hall Hhi].
  apply andb_prop in Hall as [Hall Hlo].
  apply andb_prop in Hall as [Hsolid Hq].
  exists (fraction_percent n d). split; [|split; [|split]].
  - assert (solid (PyFloat.str_of_int n +:+ "/" +:+ PyFloat.str_of_int d)) as Htoken.
    { apply solid_forallb; [|done]. by destruct (PyFloat.str_of_int n). }
    assert ((PyFloat.str_of_int n +:+ "/" +:+ PyFloat.str_of_int d) +:+ rest
            = PyFloat.str_of_int n +:+ "/" +:+ PyFloat.str_of_int d +:+ rest) as Hassoc
      by (by rewrite append_assoc).
    rewrite <- Hassoc in Hline.
    rewrite (get_quality_first_token cell _ rest Hline Htoken Hrest).
    destruct (quality_of_token _) as [[s|]|]; try done.
    apply String.eqb_eq in Hq. by subst.
  - lia.
  - lia.
  - done.
Qed.

Lemma get_quality_fraction_witness :
  exists percent : Z,
    get_quality ["Quality=23/40  Signal level=-60 dBm"]
    = Ok (PStr (quality_format percent))
    /\ (0 <= percent <= 100)%Z
    /\ (2 * Z.abs (100 * 23 - percent * 40) <= 40)%Z
    /\ percent = 57%Z.
Proof.
  apply (get_quality_fraction ["Quality=23/40  Signal level=-60 dBm"] 23 40
           "  Signal level=-60 dBm"); (lia || reflexivity).
Defined.

(** ** [str.strip] *)

Lemma lstrip_no_blank_head (l : list ascii) : no_blank_head (Py.lstrip_chars l).
Proof.
  induction l as [|c l IH]; simpl; [done|].
  by destruct (Py.isspace c) eqn:Hc.
Qed.

Lemma lstrip_id (l : list ascii) : no_blank_head l -> Py.lstrip_chars l = l.
Proof. destruct l as [|c l]; simpl; [done|]. by intros ->. Qed.

Lemma lstrip_suffix (l : list ascii) : exists ws, l = ws ++ Py.lstrip_chars l.
Proof.
  induction l as [|c l [ws IH]]; simpl; [by exists []|].
  destruct (Py.isspace c).
  - exists (c :: ws). simpl. by f_equal.
  - by exists [].
Qed.

Lemma no_blank_head_app_l (l k : list ascii) :
  no_blank_head (l ++ k) -> l <> [] -> no_blank_head l.
Proof. by destruct l. Qed.

(** What [strip] leaves begins and ends with a character that is no blank. *)
Lemma strip_chars_trimmed (l : list ascii) :
  let t := rev (Py.lstrip_chars (rev (Py.lstrip_chars l))) in
  no_blank_head t /\ no_blank_head (rev t).
Proof.
  simpl. split.
  - pose proof (lstrip_no_blank_head l) as Hm.
    destruct (lstrip_suffix (rev (Py.lstrip_chars l))) as [ws Hws].
    set (x := Py.lstrip_chars (rev (Py.lstrip_chars l))) in *.
    apply (f_equal (@rev ascii)) in Hws. rewrite rev_involutive, rev_app_distr in Hws.
    destruct (decide (rev x = [])) as [->|Hx]; [done|].
    rewrite Hws in Hm. by eapply no_blank_head_app_l.
  - rewrite rev_involutive. apply lstrip_no_blank_head.
Qed.

Lemma strip_chars_id (l : list ascii) :
  no_blank_head l -> no_blank_head (rev l) ->
  rev (Py.lstrip_chars (rev (Py.lstrip_chars l))) = l.
Proof.
  intros Hhead Hlast. by rewrite (lstrip_id l), (lstrip_id (rev l)), rev_involutive.
Qed.

Lemma strip_idemp (s : string) : Py.strip (Py.strip s) = Py.strip s.
Proof.
  unfold Py.strip. rewrite chars_str. f_equal.
  apply strip_chars_id; apply strip_chars_trimmed.
Qed.

Lemma strip_length (s : string) : (Py.len (Py.strip s) <= Py.len s)%nat.
Proof.
  unfold Py.strip, Py.len. rewrite <- !length_chars, chars_str, length_rev.
  destruct (lstrip_suffix (rev (Py.lstrip_chars (Py.chars s)))) as [ws Hws].
  destruct (lstrip_suffix (Py.chars s)) as [ws' Hws'].
  apply (f_equal length) in Hws, Hws'.
  rewrite length_rev, length_app in Hws. rewrite length_app in Hws'. lia.
Qed.

Lemma slice_last_length (n : nat) (s : string) : (Py.len (Py.slice_last n s) <= n)%nat.
Proof.
  unfold Py.slice_last, Py.len. rewrite <- length_chars, chars_str, length_drop. lia.
Qed.

(** ** CellSegmenter, continued *)

Lemma cell_body_stripped (lines : list string) :
  Forall (fun line => Py.strip line = line) (cell_body lines).
Proof.
  induction lines as [|line lines IH]; simpl; [constructor|].
  destruct (String.prefix "Cell " line); constructor; [apply strip_idemp | done].
Qed.

(** X6: every cell the segmenter makes has a first line, of at most 27
    characters, and every line of it is stripped: stripping it again changes
    nothing. *)
Theorem segment_cells_invariant (lines : list string) (cell : list string) :
  cell ∈ segment_cells lines ->
  exists first body,
    cell = first :: body
    /\ (Py.len first <= 27)%nat
    /\ Forall (fun line => Py.strip line = line) cell.
Proof.
  rewrite segment_cells_cells_of.
  induction lines as [|line lines IH]; simpl; [by intros ?%elem_of_nil|].
  destruct (String.prefix "Cell " line); [|done].
  intros [->|Hcell]%elem_of_cons; [|by apply IH].
  eexists _, _. split; [done|]. split.
  - etrans; [apply strip_length | apply slice_last_length].
  - constructor; [apply strip_idemp | apply cell_body_stripped].
Qed.

Lemma segment_cells_invariant_witness :
  exists first body,
    ["Address: 00:11:22:33:44:55"; "ESSID:x"] = first :: body
    /\ (Py.len first <= 27)%nat
    /\ Forall (fun line => Py.strip line = line)
         ["Address: 00:11:22:33:44:55"; "ESSID:x"].
Proof.
  apply (segment_cells_invariant
           ["Cell 01 - Address: 00:11:22:33:44:55"; "    ESSID:x  "]).
  vm_compute. left.
Defined.

(** ** [sort_cells], continued *)

(** X7: on records that have a Quality string the sorted list is in
    descending order: no record is followed by one whose Quality string is
    greater. *)
Theorem sort_cells_descending (cells : list record) :
  Forall has_quality cells ->
  exists sorted,
    sort_cells cells = Ok sorted
    /\ Sorted (fun x y => String.ltb (quality_of x) (quality_of y) = false) sorted.
Proof.
  intros H. exists (sort_desc quality_lt cells). split.
  - by apply sort_cells_ok.
  - apply (sort_desc_sorted quality_lt), quality_lt_asym.
Qed.

Lemma sort_cells_descending_witness :
  let cells := [access_point "a" " 50 %"; access_point "b" "100 %";
                access_point "c" " 71 %"] in
  exists sorted,
    sort_cells cells = Ok sorted
    /\ Sorted (fun x y => String.ltb (quality_of x) (quality_of y) = false) sorted.
Proof.
  apply (sort_cells_descending
           [access_point "a" " 50 %"; access_point "b" "100 %";
            access_point "c" " 71 %"]).
  repeat constructor; eexists; vm_compute; reflexivity.
Defined.

Lemma mapM_sort_key_missing (cells : list record) :
  Exists (fun el : record => el !! "Quality" = None) cells ->
  mapM sort_key cells = Raise KeyError.
Proof.
  induction cells as [|el cells IH]; [by intros ?%Exists_nil|].
  intros H. cbn [mapM].
  destruct (el !! "Quality") as [v|] eqn:Hel.
  - assert (sort_key el = Ok v) as -> by (unfold sort_key; by rewrite Hel).
    cbn [mbind result_bind]. rewrite IH; [reflexivity|].
    apply Exists_cons in H as [H|H]; [congruence | done].
  - assert (sort_key el = Raise KeyError) as -> by (unfold sort_key; by rewrite Hel).
    reflexivity.
Qed.

(** X8: a list with a record that has no Quality key is not sorted:
    [sort_cells] raises [KeyError]. *)
Theorem sort_cells_missing_key (cells : list record) :
  Exists (fun el : record => el !! "Quality" = None) cells ->
  sort_cells cells = Raise KeyError.
Proof. intros H. unfold sort_cells. by rewrite mapM_sort_key_missing. Qed.

Lemma sort_cells_missing_key_witness :
  sort_cells [access_point "a" " 50 %"; delete "Quality" (access_point "b" "100 %")]
  = Raise KeyError.
Proof.
  apply (sort_cells_missing_key
           [access_point "a" " 50 %"; delete "Quality" (access_point "b" "100 %")]).
  apply Exists_cons_tl, Exists_cons_hd. reflexivity.
Defined.

Lemma mapM_sort_key_present (cells : list record) :
  Forall (fun el : record => is_Some (el !! "Quality")) cells ->
  exists keys,
    mapM sort_key cells = Ok keys
    /\ forallb is_str keys
       = forallb (fun el : record => bool_decide (el !! "Quality" <> Some PNone)) cells.
Proof.
  induction 1 as [|el cells [v Hel] _ (keys & IH & Hkeys)]; [by exists []|].
  exists (v :: keys). cbn [mapM].
  assert (sort_key el = Ok v) as -> by (unfold sort_key; by rewrite Hel).
  rewrite IH. split; [done|].
  simpl. rewrite Hkeys, Hel. f_equal. by destruct v.
Qed.

(** X9: two records or more, each with a Quality key, one of them with the
    Quality [None]: the comparison of the keys raises [TypeError]. *)
Theorem sort_cells_none_key (cells : list record) :
  (2 <= length cells)%nat ->
  Forall (fun el : record => is_Some (el !! "Quality")) cells ->
  Exists (fun el : record => el !! "Quality" = Some PNone) cells ->
  sort_cells cells = Raise TypeError.
Proof.
  intros Hlen Hall Hnone. unfold sort_cells.
  destruct (mapM_sort_key_present cells Hall) as (keys & -> & Hkeys).
  cbn [mbind result_bind]. rewrite Hkeys, bool_decide_eq_true_2 by done.
  assert (forallb (fun el : record => bool_decide (el !! "Quality" <> Some PNone)) cells
          = false) as ->; [|done].
  apply not_true_iff_false. intros Htrue. rewrite forallb_forall in Htrue.
  apply Exists_exists in Hnone as (el & Hel & Hq).
  apply list_elem_of_In, Htrue, bool_decide_eq_true in Hel. done.
Qed.

Lemma sort_cells_none_key_witness :
  sort_cells [access_point "a" " 50 %"; <["Quality" := PNone]> (access_point "b" "")]
  = Raise TypeError.
Proof.
  apply (sort_cells_none_key
           [access_point "a" " 50 %"; <["Quality" := PNone]> (access_point "b" "")]).
  - simpl. lia.
  - repeat constructor; eexists; vm_compute; reflexivity.
  - apply Exists_cons_tl, Exists_cons_hd. reflexivity.
Defined.

(** ** [iwlist_parse] as a whole *)

Lemma mapM_Ok {A B : Type} (f : A -> result B) (l : list A) (k : list B) :
  mapM f l = Ok k <-> Forall2 (fun x y => f x = Ok y) l k.
Proof.
  revert k. induction l as [|x l IH]; intros k; cbn [mapM mret result_ret].
  - split.
    + intros [= <-]. constructor.
    + intros H. by apply Forall2_nil_inv_l in H as ->.
  - destruct (f x) as [y|e] eqn:Hx; cbn [mbind result_bind mret result_ret].
    + destruct (mapM f l) as [k'|e] eqn:Hl; cbn [mbind result_bind mret result_ret].
      * split.
        -- intros [= <-]. constructor; [done | by apply IH].
        -- intros (y' & k'' & Hy & Hk & ->)%Forall2_cons_inv_l.
           apply IH in Hk. rewrite Hx in Hy. simplify_eq. reflexivity.
      * split; [done|].
        intros (y' & k'' & Hy & Hk & ->)%Forall2_cons_inv_l. by apply IH in Hk.
    + split; [done|].
      intros (y' & k'' & Hy & Hk & ->)%Forall2_cons_inv_l. congruence.
Qed.

Lemma mapM_is_Ok {A B : Type} (f : A -> result B) (l : list A) :
  Forall (fun x => exists y, f x = Ok y) l -> exists k, mapM f l = Ok k.
Proof.
  induction 1 as [|x l [y Hx] _ [k Hl]]; [by exists []|].
  exists (y :: k). cbn [mapM]. rewrite Hx, Hl. reflexivity.
Qed.

Lemma parse_cell_columns (cell : list string) (el : record) :
  parse_cell cell = Ok el -> forall key, key ∈ COLUMNS <-> is_Some (el !! key).
Proof.
  rewrite parse_cell_unfold.
  destruct (get_name cell) as [name|]; [|done]. cbn [mbind result_bind].
  destruct (get_quality cell) as [quality|]; [|done]. cbn [mbind result_bind].
  destruct (get_signal_level cell) as [signal|]; [|done].
  intros [= <-] key. unfold record_of, COLUMNS.
  rewrite <- elem_of_dom, !dom_insert_L, dom_empty_L.
  rewrite !elem_of_cons, elem_of_nil.
  rewrite !elem_of_union, !elem_of_singleton, elem_of_empty. tauto.
Qed.

(** X10: when every cell of a scan parses, [iwlist_parse] returns one
    record for each line that begins with ["Cell "]: the records are those
    of the cells, each with the six columns as its keys, in descending order
    of their Quality strings. *)
Theorem iwlist_parse_records (lines : list string) :
  Forall (fun cell => exists el, parse_cell cell = Ok el) (segment_cells lines) ->
  exists records,
    iwlist_parse lines = Ok records
    /\ length records = length (List.filter (String.prefix "Cell ") lines)
    /\ (forall el, el ∈ records
                   <-> exists cell, cell ∈ segment_cells lines /\ parse_cell cell = Ok el)
    /\ Forall (fun el : record => forall key, key ∈ COLUMNS <-> is_Some (el !! key))
         records
    /\ Sorted (fun x y => String.ltb (quality_of x) (quality_of y) = false) records.
Proof.
  intros Hcells. destruct (mapM_is_Ok _ _ Hcells) as [parsed Hparsed].
  exists (sort_desc quality_lt parsed).
  pose proof (sort_desc_perm quality_lt parsed) as Hperm.
  apply mapM_Ok in Hparsed as Hrel.
  assert (forall el, el ∈ parsed
                     <-> exists cell, cell ∈ segment_cells lines /\ parse_cell cell = Ok el)
    as Hmem.
  { intros el. split.
    - intros [i Hi]%list_elem_of_lookup.
      destruct (Forall2_lookup_r _ _ _ _ _ Hrel Hi) as (cell & Hcell & Hp).
      exists cell. split; [by eapply list_elem_of_lookup_2 | done].
    - intros (cell & [i Hi]%list_elem_of_lookup & Hp).
      destruct (Forall2_lookup_l _ _ _ _ _ Hrel Hi) as (el' & Hel' & Hp').
      assert (el' = el) as -> by congruence. by eapply list_elem_of_lookup_2. }
  split; [|split; [|split; [|split]]].
  - by rewrite iwlist_parse_unfold, Hparsed.
  - rewrite Hperm, <- (Forall2_length _ _ _ Hrel), segment_cells_cells_of.
    apply length_cells_of.
  - intros el. by rewrite Hperm.
  - rewrite Hperm. apply Forall_forall. intros el (cell & _ & Hp)%Hmem.
    by eapply parse_cell_columns.
  - apply (sort_desc_sorted quality_lt), quality_lt_asym.
Qed.

Lemma iwlist_parse_records_witness :
  let lines := ["Cell 01 - Address: 00:11:22:33:44:55"; "ESSID:" +:+ quoted "a";
                "Quality=35/70  Signal level=-70 dBm";
                "Cell 02 - Address: 00:11:22:33:44:66"; "ESSID:" +:+ quoted "b";
                "Quality=70/70  Signal level=-40 dBm"] in
  exists records,
    iwlist_parse lines = Ok records
    /\ length records = length (List.filter (String.prefix "Cell ") lines)
    /\ (forall el, el ∈ records
                   <-> exists cell, cell ∈ segment_cells lines /\ parse_cell cell = Ok el)
    /\ Forall (fun el : record => forall key, key ∈ COLUMNS <-> is_Some (el !! key))
         records
    /\ Sorted (fun x y => String.ltb (quality_of x) (quality_of y) = false) records.
Proof.
  apply (iwlist_parse_records
           ["Cell 01 - Address: 00:11:22:33:44:55"; "ESSID:" +:+ quoted "a";
            "Quality=35/70  Signal level=-70 dBm";
            "Cell 02 - Address: 00:11:22:33:44:66"; "ESSID:" +:+ quoted "b";
            "Quality=70/70  Signal level=-40 dBm"]).
  repeat constructor; eexists; vm_compute; reflexivity.
Defined.

Lemma cells_of_no_delimiter (lines : list string) :
  Forall (fun line => String.prefix "Cell " line = false) lines -> cells_of lines = [].
Proof. induction 1 as [|line lines Hline _ IH]; simpl; [done|]. by rewrite Hline. Qed.

(** X11: a scan without a line that begins with ["Cell "] gives no record
    and no error; a delimiter behind leading blanks, as [iwlist] prints it,
    does not count. *)
Theorem iwlist_parse_no_delimiter (lines : list string) :
  Forall (fun line => String.prefix "Cell " line = false) lines ->
  iwlist_parse lines = Ok [].
Proof.
  intros H. rewrite iwlist_parse_unfold, segment_cells_cells_of.
  by rewrite cells_of_no_delimiter.
Qed.

Lemma iwlist_parse_no_delimiter_witness :
  iwlist_parse ["wlan0     Scan completed :";
                "          Cell 01 - Address: 00:11:22:33:44:55";
                "                    ESSID:" +:+ quoted "home"; ""]
  = Ok [].
Proof.
  apply (iwlist_parse_no_delimiter
           ["wlan0     Scan completed :";
            "          Cell 01 - Address: 00:11:22:33:44:55";
            "                    ESSID:" +:+ quoted "home"; ""]).
  repeat constructor.
Defined.

(** ** ConnectionStatusParser, continued *)

Lemma strip_prefix_Some (sep l rest : list ascii) :
  Py.strip_prefix sep l = Some rest <-> l = sep ++ rest.
Proof.
  revert l. induction sep as [|a sep IH]; intros l; simpl.
  - split; [by intros [= ->] | by intros ->].
  - destruct l as [|b l]; [done|].
    destruct (Ascii.eqb_spec a b) as [->|Hab].
    + rewrite IH. split; [by intros -> | by intros [= ->]].
    + split; [done | by intros [= ? ?]].
Qed.

(** [find] succeeds exactly on the strings in which [sub] occurs. *)
Lemma find_aux_is_Some (sub l : list ascii) (k : nat) :
  is_Some (Py.find_aux sub l k) <-> exists pre post, l = pre ++ sub ++ post.
Proof.
  revert k. induction l as [|c l IH]; intros k; simpl.
  - destruct (Py.strip_prefix sub []) as [rest|] eqn:Hp.
    + apply strip_prefix_Some in Hp. split; [|by eauto].
      intros _. exists [], rest. done.
    + split; [by intros [? ?]|]. intros (pre & post & H).
      symmetry in H. apply app_eq_nil in H as [-> H]. apply app_eq_nil in H as [-> ->].
      done.
  - destruct (Py.strip_prefix sub (c :: l)) as [rest|] eqn:Hp.
    + apply strip_prefix_Some in Hp. split; [|by eauto].
      intros _. exists [], rest. done.
    + rewrite IH. split.
      * intros (pre & post & ->). by exists (c :: pre), post.
      * intros ([|c' pre] & post & H).
        -- simpl in H. apply strip_prefix_Some in H. congruence.
        -- simplify_eq/=. eauto.
Qed.

Lemma find_None (sub s : string) :
  Py.find sub s = None <-> forall pre post, s <> pre +:+ sub +:+ post.
Proof.
  unfold Py.find. rewrite eq_None_not_Some, find_aux_is_Some. split.
  - intros H pre post ->. apply H. exists (Py.chars pre), (Py.chars post).
    by rewrite !chars_append.
  - intros H (pre & post & Hl). apply (H (Py.str pre) (Py.str post)).
    apply chars_inj. by rewrite !chars_append, !chars_str.
Qed.

Lemma remove_char_absent (c : ascii) (s : string) : c ∉ Py.chars (Py.remove_char c s).
Proof.
  unfold Py.remove_char. rewrite chars_str.
  intros H. apply list_elem_of_In, filter_In in H as [_ H].
  by rewrite Ascii.eqb_refl in H.
Qed.

(** X12: on a list with a first line [iwconfig_parse] never raises and
    looks at no other line; the name it returns has no double quote in it
    and is never ["off/any"]. *)
Theorem iwconfig_parse_nonempty (first : string) (rest : list string) :
  exists name,
    iwconfig_parse (Lines (first :: rest)) = Ok name
    /\ (forall rest', iwconfig_parse (Lines (first :: rest')) = Ok name)
    /\ (dquote ∉ Py.chars name)
    /\ name <> "off/any".
Proof.
  exists (connected_name first).
  split; [apply iwconfig_parse_first_line|].
  split; [intros rest'; apply iwconfig_parse_first_line|].
  unfold connected_name.
  destruct (Py.find "ESSID:" (Py.strip first)) as [i|].
  - simpl. destruct (String.eqb_spec
                       (Py.remove_char dquote (Py.slice_from (i + 6) (Py.strip first)))
                       "off/any") as [Heq|Hne].
    + split; [|done]. by intros [= ]%list_elem_of_singleton.
    + split; [apply remove_char_absent | done].
  - split; [|done]. by intros [= ]%list_elem_of_singleton.
Qed.

(** X13: when ["ESSID:"] does not occur in the stripped first line, the
    answer is the sentinel ["*"]. *)
Theorem iwconfig_parse_no_essid (first : string) (rest : list string) :
  (forall pre post, Py.strip first <> pre +:+ "ESSID:" +:+ post) ->
  iwconfig_parse (Lines (first :: rest)) = Ok "*".
Proof.
  intros H. rewrite iwconfig_parse_first_line. unfold connected_name.
  apply find_None in H. by rewrite H.
Qed.

Lemma iwconfig_parse_no_essid_witness :
  iwconfig_parse (Lines ["wlan0     no wireless extensions."; "ESSID:x"]) = Ok "*".
Proof.
  apply (iwconfig_parse_no_essid "wlan0     no wireless extensions." ["ESSID:x"]).
  apply find_None. vm_compute. reflexivity.
Defined.

(** ** The process collaborator *)

Lemma str_app (l k : list ascii) : Py.str (l ++ k) = Py.str l +:+ Py.str k.
Proof. apply chars_inj. by rewrite chars_append, !chars_str. Qed.

Lemma split_on_aux_nonempty (sep cur l : list ascii) (skip : nat) :
  Py.split_on_aux sep skip cur l <> [].
Proof.
  revert skip cur. induction l as [|c l IH]; intros skip cur; simpl; [done|].
  destruct skip; [|done]. by destruct (Py.strip_prefix sep (c :: l)).
Qed.

Lemma elem_of_rev (c : ascii) (l : list ascii) : c ∈ rev l <-> c ∈ l.
Proof. by rewrite !list_elem_of_In, <- in_rev. Qed.

(** Splitting at a one-character separator: the pieces do not contain it,
    and joined by it they give the text back. *)
Lemma split_on_aux_char (c : ascii) (cur l : list ascii) :
  c ∉ cur ->
  String.concat (String c "") (Py.split_on_aux [c] 0 cur l) = Py.str (rev cur ++ l)
  /\ Forall (fun piece => c ∉ Py.chars piece) (Py.split_on_aux [c] 0 cur l).
Proof.
  revert cur. induction l as [|d l IH]; intros cur Hcur.
  - simpl. rewrite app_nil_r. split; [done|]. constructor; [|done].
    rewrite chars_str. by rewrite elem_of_rev.
  - cbn [Py.split_on_aux Py.strip_prefix].
    destruct (Ascii.eqb_spec c d) as [<-|Hcd].
    + cbn [length Nat.sub]. destruct (IH [] (not_elem_of_nil c)) as [Hjoin Hpieces].
      pose proof (split_on_aux_nonempty [c] [] l 0) as Hne.
      destruct (Py.split_on_aux [c] 0 [] l) as [|piece pieces] eqn:Hsplit; [done|].
      split.
      * change (String.concat (String c "") (Py.str (rev cur) :: piece :: pieces))
          with (Py.str (rev cur) +:+ String c "" +:+
                String.concat (String c "") (piece :: pieces)).
        rewrite Hjoin. simpl. by rewrite str_app.
      * constructor; [|done]. rewrite chars_str. by rewrite elem_of_rev.
    + destruct (IH (d :: cur)) as [Hjoin Hpieces].
      { apply not_elem_of_cons. split; [done | done]. }
      split; [|done]. rewrite Hjoin. simpl. by rewrite <- app_assoc.
Qed.

(** X14: the lines [popen_handler] hands back are the output of the command
    cut at its newlines: there is at least one line, no line contains a
    newline, and the lines joined by newlines are the output. *)
Theorem popen_handler_lines (communicate : list string -> string * option string)
    (args : list string) :
  let lines := (popen_handler communicate args).1 in
  lines <> []
  /\ Forall (fun line => ascii_of_nat 10 ∉ Py.chars line) lines
  /\ String.concat newline lines = (communicate args).1
  /\ (popen_handler communicate args).2 = (communicate args).2.
Proof.
  unfold popen_handler. destruct (communicate args) as [output error]. simpl.
  destruct (split_on_aux_char (ascii_of_nat 10) [] (Py.chars output)
              (not_elem_of_nil _)) as [Hjoin Hpieces].
  split; [apply split_on_aux_nonempty|]. split; [exact Hpieces|].
  split; [|done]. unfold Py.split_on, newline.
  etrans; [exact Hjoin|]. apply str_chars.
Qed.

(** X15: the lines of a text cut at its newlines always have a first line,
    so the [IndexError] of [iwconfig_parse] cannot occur behind
    [popen_handler]: whenever the [iwconfig] handler has returned
    [output.split(newline)] and an error, [iwlistparse] in the mode
    ["connected"] returns the name read off the first line of [output], no
    access point and that error. *)
Theorem iwlistparse_connected_split
    (iwlist_handler : string -> list string * option string)
    (output : string) (error : option string) (interface : string) (headers : bool) :
  exists first rest,
    Py.split_on newline output = first :: rest
    /\ iwconfig_parse (Lines (Py.split_on newline output)) = Ok (connected_name first)
    /\ iwlistparse iwlist_handler (fun _ => (Py.split_on newline output, error))
         interface "connected" headers
       = Ok {| currently_connected := connected_name first; headers := headers;
               access_points := []; error := error |}.
Proof.
  unfold iwlistparse.
  change (String.eqb "connected" "connected") with true.
  change (String.eqb "connected" "all") with false. cbv beta iota.
  pose proof (split_on_aux_nonempty (Py.chars newline) [] (Py.chars output) 0) as Hne.
  fold (Py.split_on newline output) in Hne.
  destruct (Py.split_on newline output) as [|first rest]; [done|].
  exists first, rest. split; [done|].
  by rewrite iwconfig_parse_first_line.
Qed.

(** ** Presentation *)

Lemma column_width_cons (s : string) (column : list pyval) :
  column_width (PStr s :: column)
  = width ← column_width column; Ok (Nat.max (Py.len s) width).
Proof.
  unfold column_width. cbn [mapM py_len mbind result_bind].
  by destruct (mapM py_len column).
Qed.

Lemma mapM_column_width_zip (row : list string) (columns : list (list pyval))
    (widths : list nat) :
  mapM column_width columns = Ok widths ->
  mapM column_width (zip_with cons (map PStr row) columns)
  = Ok (zip_with Nat.max (map Py.len row) widths).
Proof.
  revert columns widths. induction row as [|s row IH]; intros columns widths; [done|].
  destruct columns as [|column columns]; [by intros [= <-]|].
  cbn [mapM map zip_with].
  destruct (column_width column) as [width|] eqn:Hw; [|done].
  cbn [mbind result_bind].
  destruct (mapM column_width columns) as [widths'|] eqn:Hws; [|done].
  intros [= <-]. rewrite column_width_cons, Hw. cbn [mbind result_bind].
  by rewrite (IH columns widths').
Qed.

Lemma mapM_column_width_single (row : list string) :
  mapM column_width (map (fun el => [el]) (map PStr row)) = Ok (map Py.len row).
Proof.
  induction row as [|s row IH]; [done|].
  cbn [map mapM]. rewrite IH. unfold column_width. simpl.
  by rewrite Nat.max_0_r.
Qed.

(** The widths [print_table] computes for a table of strings. *)
Lemma mapM_column_width_strings (rows : list (list string)) :
  mapM column_width (zip_star (map (map PStr) rows)) = Ok (column_widths rows).
Proof.
  induction rows as [|row rows IH]; [done|].
  destruct rows as [|row' rows]; [apply mapM_column_width_single|].
  change (zip_star (map (map PStr) (row :: row' :: rows)))
    with (zip_with cons (map PStr row) (zip_star (map (map PStr) (row' :: rows)))).
  by apply mapM_column_width_zip.
Qed.

Lemma justify_line_strings (widths : list nat) (i : nat) (row : list string) :
  (i + length row <= length widths)%nat ->
  justify_line widths i (map PStr row)
  = Ok (zip_with (fun width el => ljust (width + 2) el) (drop i widths) row).
Proof.
  revert i. induction row as [|s row IH]; intros i Hlen.
  - by destruct (drop i widths).
  - simpl in Hlen. cbn [map justify_line].
    destruct (lookup_lt_is_Some_2 widths i ltac:(lia)) as [width Hwidth].
    rewrite Hwidth, IH by lia. cbn [mbind result_bind].
    by rewrite (drop_S _ _ _ Hwidth).
Qed.

Lemma mapM_justify_line_strings (widths : list nat) (rows : list (list string)) :
  Forall (fun row => (length row <= length widths)%nat) rows ->
  mapM (justify_line widths 0) (map (map PStr) rows)
  = Ok (map (zip_with (fun width el => ljust (width + 2) el) widths) rows).
Proof.
  induction 1 as [|row rows Hrow _ IH]; [done|].
  cbn [map mapM]. rewrite justify_line_strings, IH by done. by rewrite drop_0.
Qed.

Lemma length_column_widths (n : nat) (rows : list (list string)) :
  Forall (fun row => length row = n) rows -> rows <> [] ->
  length (column_widths rows) = n.
Proof.
  induction 1 as [|row rows Hrow Hrows IH]; [done|]. intros _.
  destruct rows as [|row' rows].
  - simpl. by rewrite length_map.
  - change (column_widths (row :: row' :: rows))
      with (zip_with Nat.max (map Py.len row) (column_widths (row' :: rows))).
    rewrite length_zip_with, length_map, Hrow.
    rewrite IH by done. lia.
Qed.

Lemma fit_max_l (row : list string) (widths : list nat) :
  length row = length widths ->
  Forall2 (fun width el => (Py.len el <= width)%nat)
    (zip_with Nat.max (map Py.len row) widths) row.
Proof.
  revert widths. induction row as [|s row IH]; intros [|width widths] Hlen; try done.
  simpl. constructor; [lia|]. apply IH. by simplify_eq/=.
Qed.

Lemma fit_max_r (row r : list string) (widths : list nat) :
  length row = length widths ->
  Forall2 (fun width el => (Py.len el <= width)%nat) widths r ->
  Forall2 (fun width el => (Py.len el <= width)%nat)
    (zip_with Nat.max (map Py.len row) widths) r.
Proof.
  intros Hlen Hr. revert row Hlen.
  induction Hr as [|width s widths r Hs _ IH]; intros [|s' row] Hlen; try done.
  simpl. constructor; [lia|]. apply IH. by simplify_eq/=.
Qed.

(** No element is longer than the width of its column. *)
Lemma column_widths_fit (n : nat) (rows : list (list string)) :
  Forall (fun row => length row = n) rows ->
  Forall (fun row => Forall2 (fun width el => (Py.len el <= width)%nat)
                       (column_widths rows) row) rows.
Proof.
  induction 1 as [|row rows Hrow Hrows IH]; [constructor|].
  destruct rows as [|row' rows].
  - constructor; [|constructor]. simpl. clear.
    induction row; constructor; [lia | done].
  - pose proof (length_column_widths n (row' :: rows) Hrows ltac:(done)) as Hlen.
    change (column_widths (row :: row' :: rows))
      with (zip_with Nat.max (map Py.len row) (column_widths (row' :: rows))).
    constructor.
    + apply fit_max_l. lia.
    + eapply Forall_impl; [exact IH|]. intros r Hr. apply fit_max_r; [lia | done].
Qed.

Lemma ljust_length (n : nat) (s : string) :
  Py.len (ljust n s) = Nat.max n (Py.len s).
Proof.
  unfold ljust, Py.len. rewrite <- !length_chars, chars_append, chars_str.
  rewrite length_app, length_replicate, length_chars. unfold Py.len. lia.
Qed.

Lemma print_line_length (line : list string) :
  Py.len (print_line line) = (sum_list (map (fun el => Py.len el + 1)%nat line) + 1)%nat.
Proof.
  unfold Py.len. induction line as [|el line IH]; [done|].
  cbn [print_line fold_right map sum_list sum_list_with].
  fold (print_line line). rewrite <- length_chars, !chars_append, !length_app.
  rewrite !length_chars, IH. unfold id. simpl. lia.
Qed.

(** A printed row whose elements fit is as long as the widths make it. *)
Lemma printed_row_length (widths : list nat) (row : list string) :
  Forall2 (fun width el => (Py.len el <= width)%nat) widths row ->
  Py.len (printed_row widths row)
  = (sum_list (map (fun width => width + 3)%nat widths) + 1)%nat.
Proof.
  intros H. unfold printed_row. rewrite print_line_length. f_equal.
  induction H as [|width el widths row Hel _ IH]; [done|].
  cbn [zip_with map sum_list sum_list_with]. rewrite ljust_length, IH.
  unfold id. lia.
Qed.

Lemma print_table_strings (n : nat) (rows : list (list string)) :
  Forall (fun row => length row = n) rows ->
  print_table (map (map PStr) rows)
  = Ok (String.concat "" (map (printed_row (column_widths rows)) rows)).
Proof.
  intros Hrows. unfold print_table, justify_table.
  rewrite mapM_column_width_strings. cbn [mbind result_bind].
  rewrite mapM_justify_line_strings.
  - cbn [mbind result_bind]. by rewrite map_map.
  - destruct rows as [|row rows]; [constructor|].
    rewrite (length_column_widths n) by done.
    eapply Forall_impl; [exact Hrows|]. intros r Hr. simpl in Hr. lia.
Qed.

(** X16: for a table of strings whose rows all have [n] elements,
    [print_table] writes one line per row, in order; in each line every
    element is left-justified in the width of the longest element of its
    column and two, and followed by a blank, so that no element is cut and
    all lines have the same length. *)
Theorem print_table_aligned (n : nat) (rows : list (list string)) :
  Forall (fun row => length row = n) rows ->
  print_table (map (map PStr) rows)
  = Ok (String.concat "" (map (printed_row (column_widths rows)) rows))
  /\ Forall (fun row => Forall2 (fun width el => (Py.len el <= width)%nat)
                          (column_widths rows) row) rows
  /\ Forall (fun row =>
               Py.len (printed_row (column_widths rows) row)
               = (sum_list (map (fun width => width + 3)%nat (column_widths rows)) + 1)%nat)
       rows.
Proof.
  intros Hrows. split; [by eapply print_table_strings|].
  pose proof (column_widths_fit n rows Hrows) as Hfit. split; [done|].
  eapply Forall_impl; [exact Hfit|]. intros row Hrow. by apply printed_row_length.
Qed.

Lemma print_table_aligned_witness :
  print_table [[PStr "AA"; PStr "1"]; [PStr "B"; PStr "22"]]
  = Ok ("AA   1    " +:+ newline +:+ "B    22   " +:+ newline).
Proof.
  destruct (print_table_aligned 2 [["AA"; "1"]; ["B"; "22"]]) as [Htext _].
  - repeat constructor.
  - exact Htext.
Defined.

(** A [None] in the table: [len] raises while the widths are computed. *)
Lemma mapM_py_len_none (column : list pyval) :
  PNone ∈ column -> mapM py_len column = Raise TypeError.
Proof.
  induction column as [|el column IH]; [by intros ?%elem_of_nil|].
  intros H. cbn [mapM]. destruct el as [s|]; [|done].
  cbn [py_len mbind result_bind]. rewrite IH; [done|].
  by apply elem_of_cons in H as [?|?].
Qed.

Lemma column_width_none (column : list pyval) :
  PNone ∈ column -> column_width column = Raise TypeError.
Proof. intros H. unfold column_width. by rewrite mapM_py_len_none. Qed.

Lemma column_width_error (column : list pyval) :
  (exists width, column_width column = Ok width)
  \/ column_width column = Raise TypeError.
Proof.
  destruct (decide (PNone ∈ column)) as [H|H]; [right; by apply column_width_none|].
  left. unfold column_width.
  assert (exists lens, mapM py_len column = Ok lens) as [lens ->]; [|by eexists].
  induction column as [|el column IH]; [by eexists|].
  apply not_elem_of_cons in H as [Hel H]. destruct (IH H) as [lens Hlens].
  destruct el as [s|]; [|done]. cbn [mapM py_len mbind result_bind].
  rewrite Hlens. by eexists.
Qed.

Lemma mapM_column_width_none (columns : list (list pyval)) :
  Exists (fun column => PNone ∈ column) columns ->
  mapM column_width columns = Raise TypeError.
Proof.
  induction columns as [|column columns IH]; [by intros ?%Exists_nil|].
  intros H. cbn [mapM]. apply Exists_cons in H as [H|H].
  - by rewrite column_width_none.
  - destruct (column_width_error column) as [[width ->]| ->]; [|done].
    cbn [mbind result_bind]. by rewrite IH.
Qed.

Lemma length_zip_star (n : nat) (table : list (list pyval)) :
  Forall (fun row => length row = n) table -> table <> [] ->
  length (zip_star table) = n.
Proof.
  induction 1 as [|row table Hrow Htable IH]; [done|]. intros _.
  destruct table as [|row' table].
  - simpl. by rewrite length_map.
  - change (zip_star (row :: row' :: table))
      with (zip_with cons row (zip_star (row' :: table))).
    rewrite length_zip_with, IH by done. lia.
Qed.

Lemma zip_with_cons_none_l (row : list pyval) (columns : list (list pyval)) :
  (length row <= length columns)%nat -> PNone ∈ row ->
  Exists (fun column => PNone ∈ column) (zip_with cons row columns).
Proof.
  revert columns. induction row as [|el row IH]; intros columns Hlen H.
  { by apply elem_of_nil in H. }
  destruct columns as [|column columns]; [simpl in Hlen; lia|].
  simpl in *. apply elem_of_cons in H as [<-|H].
  - apply Exists_cons_hd. left.
  - apply Exists_cons_tl, IH; [lia | done].
Qed.

Lemma zip_with_cons_none_r (row : list pyval) (columns : list (list pyval)) :
  (length columns <= length row)%nat ->
  Exists (fun column => PNone ∈ column) columns ->
  Exists (fun column => PNone ∈ column) (zip_with cons row columns).
Proof.
  intros Hlen H. revert row Hlen.
  induction H as [column columns H|column columns _ IH]; intros [|el row] Hlen;
    simpl in *; try lia.
  - apply Exists_cons_hd. by right.
  - apply Exists_cons_tl, IH. lia.
Qed.

Lemma zip_star_none (n : nat) (table : list (list pyval)) :
  Forall (fun row => length row = n) table ->
  Exists (fun row => PNone ∈ row) table ->
  Exists (fun column => PNone ∈ column) (zip_star table).
Proof.
  induction 1 as [|row table Hrow Htable IH]; [by intros ?%Exists_nil|].
  intros H. destruct table as [|row' table].
  - apply Exists_cons in H as [H|H]; [|by apply Exists_nil in H].
    simpl. clear -H. induction row as [|el row IH]; [by apply elem_of_nil in H|].
    simpl. apply elem_of_cons in H as [<-|H].
    + apply Exists_cons_hd. left.
    + by apply Exists_cons_tl, IH.
  - change (zip_star (row :: row' :: table))
      with (zip_with cons row (zip_star (row' :: table))).
    pose proof (length_zip_star n (row' :: table) Htable ltac:(done)) as Hlen.
    apply Exists_cons in H as [H|H].
    + apply zip_with_cons_none_l; [lia | done].
    + apply zip_with_cons_none_r; [lia | by apply IH].
Qed.

Lemma print_table_none (n : nat) (table : list (list pyval)) :
  Forall (fun row => length row = n) table ->
  Exists (fun row => PNone ∈ row) table ->
  print_table table = Raise TypeError.
Proof.
  intros Hrect Hnone. unfold print_table, justify_table.
  by rewrite mapM_column_width_none by by eapply zip_star_none.
Qed.

(** ** [print_cells] *)

Lemma mapM_cell_property_missing (cell : record) (columns : list string) :
  Exists (fun column => cell !! column = None) columns ->
  mapM (cell_property cell) columns = Raise KeyError.
Proof.
  induction columns as [|column columns IH]; [by intros ?%Exists_nil|].
  intros H. cbn [mapM].
  destruct (cell !! column) as [v|] eqn:Hv.
  - assert (cell_property cell column = Ok v) as ->
      by (unfold cell_property; by rewrite Hv).
    cbn [mbind result_bind]. rewrite IH; [reflexivity|].
    apply Exists_cons in H as [H|H]; [congruence | done].
  - assert (cell_property cell column = Raise KeyError) as ->
      by (unfold cell_property; by rewrite Hv).
    reflexivity.
Qed.

Lemma mapM_cell_property_present (cell : record) (columns : list string) :
  Forall (fun column => is_Some (cell !! column)) columns ->
  mapM (cell_property cell) columns
  = Ok (map (fun column => default PNone (cell !! column)) columns).
Proof.
  induction 1 as [|column columns [v Hv] _ IH]; [done|].
  cbn [mapM map].
  assert (cell_property cell column = Ok v) as ->
    by (unfold cell_property; by rewrite Hv).
  rewrite IH, Hv. reflexivity.
Qed.

Lemma mapM_cell_values (cells : list record) :
  Forall (fun el : record => Forall (fun column => is_Some (el !! column)) COLUMNS)
    cells ->
  mapM (fun cell => mapM (cell_property cell) COLUMNS) cells = Ok (map cell_values cells).
Proof.
  induction 1 as [|el cells Hel _ IH]; [done|].
  cbn [mapM map]. rewrite mapM_cell_property_present, IH by done. reflexivity.
Qed.

Lemma mapM_cell_values_missing (cells : list record) :
  Exists (fun el : record => Exists (fun column => el !! column = None) COLUMNS) cells ->
  mapM (fun cell => mapM (cell_property cell) COLUMNS) cells = Raise KeyError.
Proof.
  induction cells as [|el cells IH]; [by intros ?%Exists_nil|].
  intros H. cbn [mapM].
  destruct (decide (Exists (fun column => el !! column = None) COLUMNS)) as [Hel|Hel].
  - rewrite mapM_cell_property_missing by done. reflexivity.
  - rewrite mapM_cell_property_present.
    + cbn [mbind result_bind]. rewrite IH; [reflexivity|].
      by apply Exists_cons in H as [H|H].
    + apply not_Exists_Forall in Hel; [|intros column; apply _].
      eapply Forall_impl; [exact Hel|]. intros column Hc. simpl in Hc.
      by destruct (el !! column); [eexists|].
Qed.

Lemma print_cells_complete (cells : list record) (headers : bool) :
  Forall (fun el : record => Forall (fun column => is_Some (el !! column)) COLUMNS)
    cells ->
  print_cells cells headers
  = print_table ((if headers then [map PStr COLUMNS] else []) ++ map cell_values cells).
Proof. intros H. unfold print_cells. by rewrite mapM_cell_values. Qed.

Lemma cell_values_strings (el : record) :
  Forall (fun column => exists s, el !! column = Some (PStr s)) COLUMNS ->
  cell_values el = map PStr (map (field_text el) COLUMNS).
Proof.
  intros H. unfold cell_values. rewrite map_map. apply map_ext_Forall.
  eapply Forall_impl; [exact H|]. intros column [s Hs]. simpl.
  unfold field_text. by rewrite Hs.
Qed.

Lemma print_cells_strings (cells : list record) (headers : bool) :
  Forall (fun el : record =>
            Forall (fun column => exists s, el !! column = Some (PStr s)) COLUMNS)
    cells ->
  print_cells cells headers
  = print_table (map (map PStr) (table_rows cells headers))
  /\ Forall (fun row => length row = 6%nat) (table_rows cells headers).
Proof.
  intros H. split.
  - rewrite print_cells_complete.
    + f_equal. unfold table_rows. rewrite map_app, map_map. f_equal.
      * by destruct headers.
      * apply map_ext_Forall. eapply Forall_impl; [exact H|].
        intros el Hel. by apply cell_values_strings.
    + eapply Forall_impl; [exact H|]. intros el Hel.
      eapply Forall_impl; [exact Hel|]. intros column [s Hs]. by eexists.
  - unfold table_rows. apply Forall_app. split.
    + destruct headers; repeat constructor.
    + apply Forall_forall. intros row (el & -> & _)%list_elem_of_fmap. done.
Qed.

Lemma cell_values_none (el : record) :
  Exists (fun column => el !! column = Some PNone) COLUMNS -> PNone ∈ cell_values el.
Proof.
  intros (column & Hc & Hv)%Exists_exists. unfold cell_values.
  apply list_elem_of_fmap. exists column. by rewrite Hv.
Qed.

Lemma print_cells_none (cells : list record) (headers : bool) :
  Forall (fun el : record => Forall (fun column => is_Some (el !! column)) COLUMNS)
    cells ->
  Exists (fun el : record => Exists (fun column => el !! column = Some PNone) COLUMNS)
    cells ->
  print_cells cells headers = Raise TypeError.
Proof.
  intros Hall Hnone. rewrite print_cells_complete by done.
  apply (print_table_none 6).
  - apply Forall_app. split; [destruct headers; repeat constructor|].
    apply Forall_forall. intros row (el & -> & _)%list_elem_of_fmap. done.
  - apply Exists_app. right. apply Exists_exists in Hnone as (el & Hel & Hnone).
    apply Exists_exists. exists (cell_values el).
    split; [by apply list_elem_of_fmap_2 | by apply cell_values_none].
Qed.

(** X17: a record that has the six columns but [None] in one of them (the
    Address or the Channel of a cell without that line) cannot be printed:
    [print_cells] raises [TypeError], and nothing is written. *)
Theorem print_cells_none_raises (cells : list record) (headers : bool) :
  Forall (fun el : record => Forall (fun column => is_Some (el !! column)) COLUMNS)
    cells ->
  Exists (fun el : record => Exists (fun column => el !! column = Some PNone) COLUMNS)
    cells ->
  print_cells cells headers = Raise TypeError.
Proof. apply print_cells_none. Qed.

Lemma print_cells_none_raises_witness :
  print_cells [access_point "home" "100 %"] true = Raise TypeError.
Proof.
  apply (print_cells_none_raises [access_point "home" "100 %"] true).
  - repeat constructor; eexists; vm_compute; reflexivity.
  - apply Exists_cons_hd, Exists_cons_tl, Exists_cons_hd. reflexivity.
Defined.

(** X18: a record without one of the six columns cannot be printed either:
    [print_cells] raises [KeyError] before anything is written. *)
Theorem print_cells_missing_column (cells : list record) (headers : bool) :
  Exists (fun el : record => Exists (fun column => el !! column = None) COLUMNS) cells ->
  print_cells cells headers = Raise KeyError.
Proof. intros H. unfold print_cells. by rewrite mapM_cell_values_missing. Qed.

Lemma print_cells_missing_column_witness :
  print_cells [delete "Signal" (access_point "home" "100 %")] false = Raise KeyError.
Proof.
  apply (print_cells_missing_column [delete "Signal" (access_point "home" "100 %")] false).
  apply Exists_cons_hd. do 3 apply Exists_cons_tl. apply Exists_cons_hd. reflexivity.
Defined.

(** X19: records whose six columns are all strings are printed as a table:
    the column names first when headers are asked for, then one line per
    record in the order given, every element left-justified in the width of
    the longest element of its column and two; all lines have the same
    length. *)
Theorem print_cells_table (cells : list record) (headers : bool) :
  Forall (fun el : record =>
            Forall (fun column => exists s, el !! column = Some (PStr s)) COLUMNS)
    cells ->
  let rows := table_rows cells headers in
  print_cells cells headers
  = Ok (String.concat "" (map (printed_row (column_widths rows)) rows))
  /\ length rows = ((if headers then 1 else 0) + length cells)%nat
  /\ Forall (fun row =>
               Py.len (printed_row (column_widths rows) row)
               = (sum_list (map (fun width => width + 3)%nat (column_widths rows)) + 1)%nat)
       rows.
Proof.
  intros H rows. destruct (print_cells_strings cells headers H) as [Hprint Hrect].
  fold rows in Hprint, Hrect. split; [|split].
  - rewrite Hprint. by apply (print_table_strings 6).
  - unfold rows, table_rows. rewrite length_app, length_map. by destruct headers.
  - eapply Forall_impl; [exact (column_widths_fit 6 rows Hrect)|].
    intros row Hrow. by apply printed_row_length.
Qed.

Lemma print_cells_table_witness :
  let cells := [<["Address" := PStr "00:11"]>
                  (<["Channel" := PStr "6"]> (access_point "home" " 50 %"))] in
  print_cells cells true
  = Ok ("Name   Address   Quality   Signal    Channel   Encryption   " +:+ newline
        +:+ "home   00:11      50 %     -43 dBm   6         WEP          " +:+ newline).
Proof.
  destruct (print_cells_table
              [<["Address" := PStr "00:11"]>
                 (<["Channel" := PStr "6"]> (access_point "home" " 50 %"))] true)
    as [Htext _].
  - repeat constructor; eexists; vm_compute; reflexivity.
  - exact Htext.
Defined.

(** ** From the scan to the table *)

Lemma parse_cell_record_of (cell : list string) (el : record) :
  parse_cell cell = Ok el ->
  exists name quality signal : string,
    el = record_of cell (PStr name) (PStr quality) (PStr signal).
Proof.
  rewrite parse_cell_unfold.
  destruct (get_name cell) as [name|] eqn:Hn; [|done]. cbn [mbind result_bind].
  destruct (get_quality cell) as [quality|] eqn:Hq; [|done]. cbn [mbind result_bind].
  destruct (get_signal_level cell) as [signal|] eqn:Hs; [|done].
  intros [= <-].
  destruct (get_name_str _ _ Hn) as [n ->], (get_quality_str _ _ Hq) as [q ->],
    (get_signal_level_str _ _ Hs) as [s ->].
  by exists n, q, s.
Qed.

Lemma parse_cell_none (cell : list string) (el : record) :
  parse_cell cell = Ok el ->
  matching_line cell "Address: " = None \/ matching_line cell "Channel:" = None ->
  Exists (fun column => el !! column = Some PNone) COLUMNS.
Proof.
  intros (n & q & s & ->)%parse_cell_record_of [H|H]; apply Exists_exists.
  - exists "Address". split; [apply list_elem_of_In; simpl; tauto|]. unfold record_of. by rewrite H.
  - exists "Channel". split; [apply list_elem_of_In; simpl; tauto|]. unfold record_of. by rewrite H.
Qed.

Lemma parse_cell_strings (cell : list string) (el : record) :
  parse_cell cell = Ok el ->
  is_Some (matching_line cell "Address: ") -> is_Some (matching_line cell "Channel:") ->
  Forall (fun column => exists s, el !! column = Some (PStr s)) COLUMNS.
Proof.
  intros (n & q & s & ->)%parse_cell_record_of [address Ha] [channel Hc].
  unfold record_of. rewrite Ha, Hc.
  repeat constructor; eexists; reflexivity.
Qed.

Lemma parse_cell_complete (cell : list string) (el : record) :
  parse_cell cell = Ok el -> Forall (fun column => is_Some (el !! column)) COLUMNS.
Proof.
  intros H. apply Forall_forall. intros column Hc.
  by apply (parse_cell_columns cell el H).
Qed.

Lemma Forall2_Forall_r {A B : Type} (R : A -> B -> Prop) (P : A -> Prop)
    (Q : B -> Prop) (l : list A) (k : list B) :
  (forall x y, R x y -> P x -> Q y) -> Forall2 R l k -> Forall P l -> Forall Q k.
Proof.
  intros HPQ H. induction H as [|x y l k HR _ IH]; [constructor|].
  intros [Hx Hl]%Forall_cons_1. constructor; eauto.
Qed.

Lemma Forall2_Exists_r {A B : Type} (R : A -> B -> Prop) (P : A -> Prop)
    (Q : B -> Prop) (l : list A) (k : list B) :
  (forall x y, R x y -> P x -> Q y) -> Forall2 R l k -> Exists P l -> Exists Q k.
Proof.
  intros HPQ H. induction H as [|x y l k HR _ IH]; [by intros ?%Exists_nil|].
  intros [Hx|Hl]%Exists_cons; [apply Exists_cons_hd | apply Exists_cons_tl]; eauto.
Qed.

(** X20: from the scan to the table.  When every cell of a scan parses, its
    records can be printed exactly when every cell has an [Address: ] and a
    [Channel:] line: then the table of the sorted records is written; a
    cell without one of the two makes [print_cells] raise [TypeError]. *)
Theorem iwlist_parse_print_cells (lines : list string) (headers : bool) :
  Forall (fun cell => exists el, parse_cell cell = Ok el) (segment_cells lines) ->
  exists records,
    iwlist_parse lines = Ok records
    /\ (Exists (fun cell => matching_line cell "Address: " = None
                            \/ matching_line cell "Channel:" = None)
          (segment_cells lines) ->
        print_cells records headers = Raise TypeError)
    /\ (Forall (fun cell => is_Some (matching_line cell "Address: ")
                            /\ is_Some (matching_line cell "Channel:"))
          (segment_cells lines) ->
        print_cells records headers
        = Ok (String.concat ""
                (map (printed_row (column_widths (table_rows records headers)))
                   (table_rows records headers)))).
Proof.
  intros Hcells. destruct (mapM_is_Ok _ _ Hcells) as [parsed Hparsed].
  exists (sort_desc quality_lt parsed).
  pose proof (sort_desc_perm quality_lt parsed) as Hperm.
  apply mapM_Ok in Hparsed as Hrel.
  split; [by rewrite iwlist_parse_unfold, Hparsed|]. split.
  - intros Hnone. apply print_cells_none; rewrite Hperm.
    + eapply Forall2_Forall_r; [|exact Hrel|exact Hcells].
      intros cell el Hel _. simpl in Hel. by eapply parse_cell_complete.
    + eapply Forall2_Exists_r; [|exact Hrel|exact Hnone].
      intros cell el Hel H. simpl in Hel, H. by eapply parse_cell_none.
  - intros Hboth.
    assert (Forall (fun el : record =>
                      Forall (fun column => exists s, el !! column = Some (PStr s))
                        COLUMNS) (sort_desc quality_lt parsed)) as Hstrings.
    { rewrite Hperm. eapply Forall2_Forall_r; [|exact Hrel|exact Hboth].
      intros cell el Hel [Ha Hc]. simpl in Hel. by eapply parse_cell_strings. }
    destruct (print_cells_strings _ headers Hstrings) as [-> Hrect].
    by apply (print_table_strings 6).
Qed.

Lemma iwlist_parse_print_cells_witness :
  let lines := ["Cell 01 - Address: 00:11:22:33:44:55"; "Channel:6";
                "ESSID:" +:+ quoted "home"; "Quality=35/70  Signal level=-70 dBm";
                "Encryption key:off"] in
  exists records,
    iwlist_parse lines = Ok records
    /\ print_cells records true
       = Ok (String.concat ""
               (map (printed_row (column_widths (table_rows records true)))
                  (table_rows records true))).
Proof.
  destruct (iwlist_parse_print_cells
              ["Cell 01 - Address: 00:11:22:33:44:55"; "Channel:6";
               "ESSID:" +:+ quoted "home"; "Quality=35/70  Signal level=-70 dBm";
               "Encryption key:off"] true) as (records & Hparse & _ & Hprint).
  - repeat constructor; eexists; vm_compute; reflexivity.
  - exists records. split; [exact Hparse|]. apply Hprint.
    repeat constructor; eexists; vm_compute; reflexivity.
Defined.

(** ** How a cell fails to parse *)

(** X21: [parse_cell] fails exactly when the Name, the Quality or the
    Signal rule fails, with the error of the first of them in this order;
    the Channel, Encryption and Address rules never make it fail. *)
Theorem parse_cell_failure (cell : list string) (e : exn) :
  parse_cell cell = Raise e
  <-> get_name cell = Raise e
      \/ (is_Some (matching_line cell "ESSID:") /\ get_quality cell = Raise e)
      \/ (is_Some (matching_line cell "ESSID:")
          /\ (exists quality, get_quality cell = Ok quality)
          /\ get_signal_level cell = Raise e).
Proof.
  rewrite parse_cell_unfold. unfold get_name.
  destruct (matching_line cell "ESSID:") as [essid|]; cbn [mbind result_bind].
  - destruct (get_quality cell) as [quality|e']; cbn [mbind result_bind].
    + destruct (get_signal_level cell) as [signal|e'']; cbn [mbind result_bind].
      * split; [done|]. intros [?|[[_ ?]|(_ & _ & ?)]]; by simplify_eq.
      * split; [intros [= ->]; right; right; eauto|].
        intros [?|[[_ ?]|(_ & _ & ?)]]; by simplify_eq.
    + split; [intros [= ->]; right; left; eauto|].
      intros [?|[[_ ?]|(_ & [? ?] & _)]]; by simplify_eq.
  - split; [intros [= <-]; by left|].
    intros [?|[[[? ?] _]|([? ?] & _)]]; by simplify_eq.
Qed.

(** X22: the Signal rule returns exactly on a cell whose first [Quality=]
    line has ["Signal level="] in it, and then what stands between the first
    occurrence and the next one; without the line it raises
    [AttributeError], without the marker [IndexError]. *)
Theorem get_signal_level_cases (cell : list string) :
  match matching_line cell "Quality=" with
  | None => get_signal_level cell = Raise AttributeError
  | Some line =>
      match Py.find "Signal level=" line with
      | None => get_signal_level cell = Raise IndexError
      | Some i =>
          get_signal_level cell
          = Ok (PStr (first_piece "Signal level=" (Py.slice_from (i + 13) line)))
      end
  end.
Proof.
  unfold get_signal_level.
  destruct (matching_line cell "Quality=") as [line|]; [|done].
  destruct (Py.find "Signal level=" line) as [i|] eqn:Hfind.
  - by destruct (split_on_two_pieces "Signal level=" line i) as [pieces ->].
  - by rewrite split_on_None.
Qed.

(** ** CellSegmenter: cutting the scan *)

Lemma cell_body_app_delimiter (before after : list string) (line : string) :
  String.prefix "Cell " line = true ->
  cell_body (before ++ line :: after) = cell_body before.
Proof.
  intros Hline. induction before as [|l before IH]; simpl.
  - by rewrite Hline.
  - destruct (String.prefix "Cell " l); [done | by rewrite IH].
Qed.

Lemma cells_of_app_delimiter (before after : list string) (line : string) :
  String.prefix "Cell " line = true ->
  cells_of (before ++ line :: after) = cells_of before ++ cells_of (line :: after).
Proof.
  intros Hline. induction before as [|l before IH]; [done|].
  cbn [app cells_of]. destruct (String.prefix "Cell " l); [|done].
  by rewrite IH, cell_body_app_delimiter.
Qed.

(** X23: a scan can be cut in front of any line that begins with
    ["Cell "]: the cells of the whole are the cells of the part before the
    cut followed by the cells of the part after it. *)
Theorem segment_cells_app (before after : list string) (line : string) :
  String.prefix "Cell " line = true ->
  segment_cells (before ++ line :: after)
  = segment_cells before ++ segment_cells (line :: after).
Proof.
  intros H. rewrite !segment_cells_cells_of. by apply cells_of_app_delimiter.
Qed.

Lemma segment_cells_app_witness :
  segment_cells (["Cell 01 - Address: 00:11:22:33:44:55"; "ESSID:a"]
                 ++ "Cell 02 - Address: 00:11:22:33:44:66" :: ["ESSID:b"])
  = segment_cells ["Cell 01 - Address: 00:11:22:33:44:55"; "ESSID:a"]
    ++ segment_cells ["Cell 02 - Address: 00:11:22:33:44:66"; "ESSID:b"].
Proof.
  apply (segment_cells_app ["Cell 01 - Address: 00:11:22:33:44:55"; "ESSID:a"]
           ["ESSID:b"] "Cell 02 - Address: 00:11:22:33:44:66").
  reflexivity.
Defined.

(** ** The name of the connected network *)

Lemma strip_prefix_app (sub l k : list ascii) :
  (length sub <= length l)%nat ->
  is_Some (Py.strip_prefix sub (l ++ k)) -> is_Some (Py.strip_prefix sub l).
Proof.
  revert l. induction sub as [|a sub IH]; intros l Hlen; [by eauto|].
  destruct l as [|b l]; [simpl in Hlen; lia|]. simpl in *.
  destruct (Ascii.eqb a b); [|done]. apply IH. lia.
Qed.

(** When [sub] does not occur in [pre] followed by all of [sub] but its last
    character, its first occurrence in [pre ++ sub ++ post] is after [pre]. *)
Lemma find_aux_first (sub pre post : list ascii) (k : nat) :
  sub <> [] ->
  Py.find_aux sub (pre ++ take (length sub - 1) sub) 0 = None ->
  Py.find_aux sub (pre ++ sub ++ post) k = Some (k + length pre)%nat.
Proof.
  intros Hsub. revert k. induction pre as [|c pre IH]; intros k Hnone.
  - simpl. assert (Py.strip_prefix sub (sub ++ post) = Some post) as Hp
      by by apply strip_prefix_Some.
    destruct (sub ++ post) as [|d l] eqn:Hl.
    + by destruct sub.
    + simpl. rewrite Hp. f_equal. lia.
  - cbn [app Py.find_aux] in Hnone |- *.
    destruct (Py.strip_prefix sub (c :: pre ++ take (length sub - 1) sub)) eqn:Hp1;
      [done|].
    rewrite find_aux_shift in Hnone.
    destruct (Py.find_aux sub (pre ++ take (length sub - 1) sub) 0) eqn:Hrec; [done|].
    destruct (Py.strip_prefix sub (c :: pre ++ sub ++ post)) as [rest|] eqn:Hp2.
    + exfalso.
      assert (is_Some (Py.strip_prefix sub (c :: pre ++ take (length sub - 1) sub)))
        as [? ?]; [|congruence].
      apply (strip_prefix_app sub _ (drop (length sub - 1) sub ++ post)).
      * simpl. rewrite length_app, length_take.
        destruct sub; [done|]. simpl. lia.
      * simpl. rewrite <- app_assoc, (app_assoc (take _ sub)), take_drop.
        simpl in Hp2. by rewrite Hp2.
    + rewrite IH by done. f_equal. simpl. lia.
Qed.

Lemma remove_char_quoted (name : string) :
  dquote ∉ Py.chars name -> Py.remove_char dquote (quoted name) = name.
Proof.
  intros H. unfold Py.remove_char, quoted.
  change (Py.chars (String dquote (name +:+ String dquote "")))
    with (dquote :: Py.chars (name +:+ String dquote "")).
  rewrite chars_append.
  change (Py.chars (String dquote "")) with [dquote].
  cbn [List.filter]. rewrite Ascii.eqb_refl. cbn [negb].
  rewrite List.filter_app. cbn [List.filter]. rewrite Ascii.eqb_refl. cbn [negb].
  rewrite app_nil_r. rewrite <- (str_chars name) at 2. f_equal.
  induction (Py.chars name) as [|c l IH]; [done|].
  apply not_elem_of_cons in H as [Hc H]. cbn [List.filter].
  destruct (Ascii.eqb_spec dquote c) as [<-|_]; [done|]. cbn [negb]. by rewrite IH.
Qed.

(** X24: when the stripped first line ends with [ESSID:] and a name between
    double quotes, and ["ESSID:"] does not occur earlier in it,
    [iwconfig_parse] returns the name without the quotes (unless the name is
    ["off/any"], by the sentinel rule). *)
Theorem iwconfig_parse_name (first pre name : string) (rest : list string) :
  Py.strip first = pre +:+ "ESSID:" +:+ quoted name ->
  Py.find "ESSID:" (pre +:+ "ESSID") = None ->
  dquote ∉ Py.chars name -> name <> "off/any" ->
  iwconfig_parse (Lines (first :: rest)) = Ok name.
Proof.
  intros Hline Hfirst Hquote Hname.
  rewrite iwconfig_parse_first_line. unfold connected_name. rewrite Hline.
  assert (Py.find "ESSID:" (pre +:+ "ESSID:" +:+ quoted name) = Some (Py.len pre))
    as ->.
  { unfold Py.find in *. rewrite !chars_append in *.
    rewrite (find_aux_first _ _ _ 0); [by rewrite length_chars | done | done]. }
  assert (Py.slice_from (Py.len pre + 6) (pre +:+ "ESSID:" +:+ quoted name)
          = quoted name) as ->.
  { unfold Py.slice_from, Py.len. rewrite !chars_append, <- length_chars.
    rewrite drop_app_add', drop_app_length' by done. apply str_chars. }
  rewrite remove_char_quoted by done.
  by apply String.eqb_neq in Hname as ->.
Qed.

Lemma iwconfig_parse_name_witness :
  iwconfig_parse
    (Lines [" wlan0  IEEE 802.11  ESSID:" +:+ quoted "home-net" +:+ "  ";
            "  Mode:Managed"])
  = Ok "home-net".
Proof.
  apply (iwconfig_parse_name _ "wlan0  IEEE 802.11  " "home-net").
  - reflexivity.
  - reflexivity.
  - vm_compute. intros H. repeat (apply elem_of_cons in H as [H|H]; [discriminate|]).
    by apply elem_of_nil in H.
  - discriminate.
Defined.
